(** * HuggingFaceEndpoint: invocation parameters, stop sequences, streaming

    A shallow embedding of the invocation/streaming core of
    [langchain_huggingface/llms/huggingface_endpoint.py]:
    [_default_params], [_invocation_params], [_call], [_acall], [_stream]
    and [_astream], together with the Python string and dict operations
    these methods rely on. *)

From Stdlib Require Import ZArith Lia Ascii.
From stdpp Require Import base option list strings gmap.

Local Open Scope Z_scope.
Local Open Scope nat_scope.

(** ** Exceptions and results *)

Inductive exn : Type :=
| TypeError
| KeyError
| ValueError
| TransportError (msg : string).

Inductive result (A : Type) : Type :=
| Ok (a : A)
| Raise (e : exn).
Arguments Ok {A} a.
Arguments Raise {A} e.

(** ** Python [str] operations used by the endpoint *)

(** A Python [str] is a finite sequence of characters; [string] is one
    over the characters of [ascii]. None of the operations below looks
    at what the characters are, only at their positions and equality. *)

Module PyStr.

Fixpoint take (n : nat) (s : string) : string :=
  match n, s with
  | S n', String a s' => String a (take n' s')
  | _, _ => EmptyString
  end.

Fixpoint drop (n : nat) (s : string) : string :=
  match n, s with
  | S n', String _ s' => drop n' s'
  | _, _ => s
  end.

(** Slice bounds are normalised the way CPython does it: a negative
    bound counts from the end and both are clamped to [0, len]. *)
Definition slice_index (i : Z) (len : nat) : nat :=
  if (i <? 0)%Z then Z.to_nat (Z.max 0 (i + Z.of_nat len))
  else Nat.min (Z.to_nat i) len.

(** [s[i:]] *)
Definition slice_from (i : Z) (s : string) : string :=
  drop (slice_index i (String.length s)) s.

(** [s[:j]] *)
Definition slice_to (j : Z) (s : string) : string :=
  take (slice_index j (String.length s)) s.

(** [s.startswith(p)] *)
Fixpoint startswith (s p : string) : bool :=
  match p, s with
  | EmptyString, _ => true
  | String a p', String b s' => if decide (a = b) then startswith s' p' else false
  | String _ _, EmptyString => false
  end.

(** [s.find(sub)], with [None] for Python's [-1]. *)
Fixpoint find (s sub : string) : option nat :=
  if startswith s sub then Some 0
  else match s with
       | EmptyString => None
       | String _ s' => S <$> find s' sub
       end.

(** [sub in s] *)
Definition contains (sub s : string) : bool :=
  match find s sub with Some _ => true | None => false end.

(** [s.index(sub)] *)
Definition index (s sub : string) : result nat :=
  match find s sub with Some i => Ok i | None => Raise ValueError end.

(** [s.endswith(q)] and [s.removesuffix(q)]-style trimming, used to
    phrase the trailing trim the way the specification words it. *)
Definition endswith (s q : string) : bool :=
  bool_decide (drop (String.length s - String.length q) s = q).

Definition strip_last (n : nat) (s : string) : string :=
  take (String.length s - n) s.

End PyStr.

(** ** Python values carried in parameter mappings *)

(** The values the endpoint stores in its parameter mappings. Floats are
    only ever handed on to the transport, never computed with, so a
    decimal literal [mantissa * 10 ^ exponent] stands for them. *)
Inductive pyval : Type :=
| VNone
| VBool (b : bool)
| VInt (z : Z)
| VFloat (mantissa exponent : Z)
| VStr (s : string)
| VList (l : list string).

Global Instance pyval_eq_dec : EqDecision pyval.
Proof. solve_decision. Defined.

Abbreviation dict := (gmap string pyval).

Definition of_int (o : option Z) : pyval :=
  match o with Some z => VInt z | None => VNone end.

Definition of_float (o : option (Z * Z)) : pyval :=
  match o with Some (m, e) => VFloat m e | None => VNone end.

Global Instance result_ret : MRet result := λ A a, Ok a.
Global Instance result_bind : MBind result := λ A B f r,
  match r with Ok a => f a | Raise e => Raise e end.
Global Instance result_fmap : FMap result := λ A B f r,
  match r with Ok a => Ok (f a) | Raise e => Raise e end.

Module PyDict.

(** [{**d, **other}]: the entries of [other] win over those of [d]. *)
Definition update (d other : dict) : dict := other ∪ d.

(** A dict display [{k1: v1, ..., kn: vn}]: entries are stored from
    left to right, a later one replacing an earlier one. *)
Definition display (items : list (string * pyval)) : dict :=
  foldl (λ d kv, <[kv.1 := kv.2]> d) ∅ items.

(** [d[k]] *)
Definition getitem (d : dict) (k : string) : result pyval :=
  match d !! k with Some v => Ok v | None => Raise KeyError end.

(** [base + extra] for a list [extra]: list concatenation when [base]
    is a list, [TypeError] for every other left operand. *)
Definition add_list (base : pyval) (extra : list string) : result pyval :=
  match base with
  | VList l => Ok (VList (l ++ extra))
  | _ => Raise TypeError
  end.

(** Iterating over a value with [for x in v] where the loop body works
    on strings: the list of items of a list, [TypeError] otherwise. *)
Definition iter (v : pyval) : result (list string) :=
  match v with
  | VList l => Ok l
  | _ => Raise TypeError
  end.

(** The keyword mapping of a call [f(k1=v1, ..., **splat)]: a name given
    both explicitly and through the mapping is a [TypeError]. *)
Definition keywords (explicit : list (string * pyval)) (splat : dict)
  : result dict :=
  if existsb (λ kv, bool_decide (is_Some (splat !! kv.1))) explicit
  then Raise TypeError
  else Ok (update splat (display explicit)).

End PyDict.

(** ** The endpoint object *)

(** The fields of [HuggingFaceEndpoint] read by the invocation core. *)
Record HuggingFaceEndpoint : Type := {
  max_new_tokens : Z;
  top_k : option Z;
  top_p : option (Z * Z);
  typical_p : option (Z * Z);
  temperature : option (Z * Z);
  repetition_penalty : option (Z * Z);
  return_full_text : bool;
  truncate : option Z;
  stop_sequences : list string;
  seed : option Z;
  streaming : bool;
  do_sample : bool;
  watermark : bool;
  model_kwargs : dict;
  model : string
}.

(** The names of the fields the class declares. [build_extra] rejects a
    [model_kwargs] that uses the name of a field as a key (the base class
    of [langchain_core] contributes further field names; the invocation
    core reads none of them). *)
Definition declared_fields : list string :=
  [ "endpoint_url"; "repo_id"; "provider"; "huggingfacehub_api_token";
    "max_new_tokens"; "top_k"; "top_p"; "typical_p"; "temperature";
    "repetition_penalty"; "return_full_text"; "truncate"; "stop_sequences";
    "seed"; "inference_server_url"; "timeout"; "streaming"; "do_sample";
    "watermark"; "server_kwargs"; "model_kwargs"; "model"; "client";
    "async_client"; "task" ].

Definition model_kwargs_valid (self : HuggingFaceEndpoint) : Prop :=
  Forall (λ k, model_kwargs self !! k = None) declared_fields.

Global Instance model_kwargs_valid_dec self : Decision (model_kwargs_valid self).
Proof. unfold model_kwargs_valid. apply _. Defined.

(** The explicitly listed entries of [_default_params]. *)
Definition explicit_params (self : HuggingFaceEndpoint) : dict :=
  PyDict.display
    [ ("max_new_tokens", VInt (max_new_tokens self));
      ("top_k", of_int (top_k self));
      ("top_p", of_float (top_p self));
      ("typical_p", of_float (typical_p self));
      ("temperature", of_float (temperature self));
      ("repetition_penalty", of_float (repetition_penalty self));
      ("return_full_text", VBool (return_full_text self));
      ("truncate", of_int (truncate self));
      ("stop", VList (stop_sequences self));
      ("seed", of_int (seed self));
      ("do_sample", VBool (do_sample self));
      ("watermark", VBool (watermark self)) ].

Definition _default_params (self : HuggingFaceEndpoint) : dict :=
  PyDict.update (explicit_params self) (model_kwargs self).

(** [runtime_stop or []] *)
Definition or_empty (runtime_stop : option (list string)) : list string :=
  match runtime_stop with
  | Some ((_ :: _) as l) => l
  | _ => []
  end.

(** Binding a call [self._invocation_params(stop, **splat)] to the
    signature [(self, runtime_stop, **kwargs)]: [self] and [runtime_stop]
    are given by position, so an entry of the mapping with one of these
    names is a second value for that argument, a [TypeError]; the other
    entries are the keyword overrides. Every call of the method in the
    class has this form. *)
Definition bind_params_args (splat : dict) : result dict :=
  if existsb (λ k, bool_decide (is_Some (splat !! k))) ["self"; "runtime_stop"]
  then Raise TypeError
  else Ok splat.

(** [self._invocation_params(runtime_stop, **kwargs)]: the binding of the
    call, then the body of the method. *)
Definition _invocation_params (self : HuggingFaceEndpoint)
    (runtime_stop : option (list string)) (kwargs : dict) : result dict :=
  kwargs ← bind_params_args kwargs;
  let params := PyDict.update (_default_params self) kwargs in
  base ← PyDict.getitem params "stop";
  merged ← PyDict.add_list base (or_empty runtime_stop);
  mret (<["stop" := merged]> params).

(** ** Effects: transport calls and observer notifications *)

Inductive client_kind : Type := SyncClient | AsyncClient.

(** What a run does to the outside world, in order: calls of a client's
    [text_generation] with their positional and keyword arguments, and
    [run_manager.on_llm_new_token] notifications. *)
Inductive effect : Type :=
| TextGeneration (c : client_kind) (args : list pyval) (kwargs : dict)
| OnLlmNewToken (c : client_kind) (token : string).

(** A computation that may raise and that appends to the effect trace. *)
Definition M (A : Type) : Type := list effect → result A * list effect.

Global Instance M_ret : MRet M := λ A a w, (Ok a, w).
Global Instance M_bind : MBind M := λ A B f m w,
  match m w with
  | (Ok a, w') => f a w'
  | (Raise e, w') => (Raise e, w')
  end.

Definition lift {A} (r : result A) : M A := λ w, (r, w).

(** The transport is a collaborator: a client answers a request with a
    complete text (plain call) or with the fragments of a stream
    ([stream=True]), or fails when called. The fragments are read from
    the front, one per iteration of the decoder's loop; a failure in the
    middle of a stream is not modelled. *)
Record transport : Type := {
  text_generation : list pyval → dict → result string;
  text_generation_stream : list pyval → dict → result (list string)
}.

Record GenerationChunk : Type := mkGenerationChunk { text : string }.

(** [completion] after [for chunk in ...: completion += chunk.text],
    starting from the empty string. *)
Definition join_chunks (chunks : list GenerationChunk) : string :=
  foldl (λ completion chunk, completion +:+ text chunk) EmptyString chunks.

Section endpoint.
Variable client : transport.
Variable async_client : transport.

Definition the_client (c : client_kind) : transport :=
  match c with SyncClient => client | AsyncClient => async_client end.

Definition call_text_generation (c : client_kind)
    (args : list pyval) (kwargs : dict) : M string :=
  λ w, (text_generation (the_client c) args kwargs,
        w ++ [TextGeneration c args kwargs]).

Definition call_text_generation_stream (c : client_kind)
    (args : list pyval) (kwargs : dict) : M (list string) :=
  λ w, (text_generation_stream (the_client c) args kwargs,
        w ++ [TextGeneration c args kwargs]).

Definition on_llm_new_token (c : client_kind) (token : string) : M unit :=
  λ w, (Ok tt, w ++ [OnLlmNewToken c token]).

(** *** Trailing trim of a complete response *)

(** The body of [for stop_seq in invocation_params["stop"]] in [_call]
    and [_acall]. *)
Definition trim_step (response_text stop_seq : string) : string :=
  let n := Z.of_nat (String.length stop_seq) in
  if decide (PyStr.slice_from (- n) response_text = stop_seq)
  then PyStr.slice_to (- n) response_text
  else response_text.

Definition trim_stop_sequences (stops : list string) (response_text : string)
  : string :=
  foldl trim_step response_text stops.

(** *** The per-fragment scanner *)

(** [stop_seq_found] after the inner loop of [_stream] / [_astream]. *)
Definition stop_seq_found (stops : list string) (response : string)
  : option string :=
  foldl (λ found stop_seq,
           if PyStr.contains stop_seq response then Some stop_seq else found)
        None stops.

(** The truth value of an [Optional[str]]: [None] and the empty string
    are false. *)
Definition truthy (o : option string) : bool :=
  match o with
  | Some (String _ _) => true
  | _ => false
  end.

(** [text], the part of the fragment to yield. *)
Definition text_to_yield (found : option string) (response : string)
  : result string :=
  match found with
  | Some stop_seq =>
      if truthy found
      then i ← PyStr.index response stop_seq;
           mret (PyStr.slice_to (Z.of_nat i) response)
      else mret response
  | None => mret response
  end.

(** One iteration of the loop over the transport's fragments: the chunk
    yielded, if any, and whether the loop breaks. *)
Definition stream_step (c : client_kind) (run_manager : bool)
    (invocation_params : dict) (response : string)
  : M (option GenerationChunk * bool) :=
  stops ← lift (PyDict.getitem invocation_params "stop" ≫= PyDict.iter);
  let found := stop_seq_found stops response in
  yield_text ← lift (text_to_yield found response);
  yielded ← (if decide (yield_text = EmptyString) then mret None
             else
               let chunk := mkGenerationChunk yield_text in
               _ ← (if run_manager then on_llm_new_token c (text chunk)
                    else mret tt);
               mret (Some chunk));
  mret (yielded, truthy found).

(** [for response in <stream>: ...]: the chunks yielded, and the
    fragments of the upstream that were never requested. *)
Fixpoint stream_loop (c : client_kind) (run_manager : bool)
    (invocation_params : dict) (upstream : list string)
  : M (list GenerationChunk * list string) :=
  match upstream with
  | [] => mret ([], [])
  | response :: rest =>
      '(yielded, stop) ← stream_step c run_manager invocation_params response;
      if (stop : bool) then mret (option_list yielded, rest)
      else
        '(chunks, unread) ← stream_loop c run_manager invocation_params rest;
        mret (option_list yielded ++ chunks, unread)
  end.

(** *** The streaming decoders *)

(** The bodies of [_stream] and [_astream] are the same text up to
    [async]/[await] and the client they call; [c] says which client and
    which run manager are meant. The chunks are those a consumer obtains
    by iterating the generator to its end. *)

Definition stream_with (c : client_kind) (self : HuggingFaceEndpoint)
    (prompt : string) (stop : option (list string)) (run_manager : bool)
    (kwargs : dict) : M (list GenerationChunk) :=
  invocation_params ← lift (_invocation_params self stop kwargs);
  kw ← lift (PyDict.keywords [("stream", VBool true)] invocation_params);
  responses ← call_text_generation_stream c [VStr prompt] kw;
  '(chunks, _) ← stream_loop c run_manager invocation_params responses;
  mret chunks.

Definition _stream := stream_with SyncClient.
Definition _astream := stream_with AsyncClient.

(** Binding the call [self._stream(prompt, run_manager=run_manager,
    **invocation_params)] to the signature
    [(self, prompt, stop=None, run_manager=None, **kwargs)]: the [stop]
    entry of the mapping becomes the [stop] argument, the other entries
    the keyword overrides; an entry named like an argument that is
    already given is a [TypeError]. The [stop] entry is typed
    [Optional[list[str]]]; in [_call] and [_acall] it is always a list. *)
Definition bind_stream_args (splat : dict)
  : result (option (list string) * dict) :=
  if existsb (λ k, bool_decide (is_Some (splat !! k)))
             ["self"; "prompt"; "run_manager"]
  then Raise TypeError
  else
    stop ← match splat !! "stop" with
           | None | Some VNone => Ok None
           | Some (VList l) => Ok (Some l)
           | Some _ => Raise TypeError
           end;
    mret (stop, delete "stop" splat).

(** *** The completion drivers *)

Definition _call (self : HuggingFaceEndpoint) (prompt : string)
    (stop : option (list string)) (run_manager : bool) (kwargs : dict)
  : M string :=
  invocation_params ← lift (_invocation_params self stop kwargs);
  if streaming self then
    '(stop', kwargs') ← lift (bind_stream_args invocation_params);
    chunks ← _stream self prompt stop' run_manager kwargs';
    mret (join_chunks chunks)
  else
    kw ← lift (PyDict.keywords
                 [("prompt", VStr prompt); ("model", VStr (model self))]
                 invocation_params);
    response_text ← call_text_generation SyncClient [] kw;
    stops ← lift (PyDict.getitem invocation_params "stop" ≫= PyDict.iter);
    mret (trim_stop_sequences stops response_text).

Definition _acall (self : HuggingFaceEndpoint) (prompt : string)
    (stop : option (list string)) (run_manager : bool) (kwargs : dict)
  : M string :=
  invocation_params ← lift (_invocation_params self stop kwargs);
  if streaming self then
    '(stop', kwargs') ← lift (bind_stream_args invocation_params);
    chunks ← _astream self prompt stop' run_manager kwargs';
    mret (join_chunks chunks)
  else
    kw ← lift (PyDict.keywords
                 [("prompt", VStr prompt); ("model", VStr (model self));
                  ("stream", VBool false)]
                 invocation_params);
    response_text ← call_text_generation AsyncClient [] kw;
    stops ← lift (PyDict.getitem invocation_params "stop" ≫= PyDict.iter);
    mret (trim_stop_sequences stops response_text).

End endpoint.

(** The names bound by the signature of the four public methods; a
    keyword mapping [**kwargs] received by them has none of these keys. *)
Definition method_kwargs (kwargs : dict) : Prop :=
  Forall (λ k, kwargs !! k = None) ["self"; "prompt"; "stop"; "run_manager"].

(** The keyword mappings that a call [self._invocation_params(stop,
    **kwargs)] can be bound with: no entry named like one of the two
    arguments given by position. *)
Definition params_kwargs (kwargs : dict) : Prop :=
  Forall (λ k, kwargs !! k = None) ["self"; "runtime_stop"].

Global Instance params_kwargs_dec kwargs : Decision (params_kwargs kwargs).
Proof. unfold params_kwargs. apply _. Defined.

(** ** The trailing trim in the words of the specification *)

(** "For each configured stop sequence, if the text ends with that exact
    sequence, remove the suffix; apply sequentially in configured order,
    each applied to the progressively-trimmed text." *)
Fixpoint trailing_trim_spec (stops : list string) (response_text : string)
  : string :=
  match stops with
  | [] => response_text
  | stop_seq :: rest =>
      trailing_trim_spec rest
        (if PyStr.endswith response_text stop_seq
         then PyStr.strip_last (String.length stop_seq) response_text
         else response_text)
  end.

(** Concatenation of a list of strings, in order. *)
Definition str_concat (l : list string) : string :=
  foldr String.append EmptyString l.

(** ** What one fragment contributes to a stream *)

(** The chunk yielded for a text: none when the text is empty. *)
Definition chunk_of (yield_text : string) : list GenerationChunk :=
  if decide (yield_text = EmptyString) then [] else [mkGenerationChunk yield_text].

(** The observer notification for a text: none when the text is empty or
    when no run manager was given. *)
Definition token_of (c : client_kind) (run_manager : bool) (yield_text : string)
  : list effect :=
  if decide (yield_text = EmptyString) then []
  else if run_manager then [OnLlmNewToken c yield_text] else [].

(** The stop sequences of [stops] that occur in [response], in order. *)
Definition matching (stops : list string) (response : string) : list string :=
  filter (λ stop_seq, PyStr.contains stop_seq response = true) stops.

(** An occurrence of [sub] in [s] at offset [i]. *)
Definition occurs_at (sub s : string) (i : nat) : Prop :=
  ∃ p r, s = p +:+ sub +:+ r ∧ String.length p = i.

(** ** The three-layer merge in the words of the specification *)

(** "Config defaults < config extras < runtime overrides": the entry of a
    key is the runtime override if there is one, else the configuration's
    extra parameter of that name, else the explicit default. *)
Definition three_layer (self : HuggingFaceEndpoint) (runtime_overrides : dict)
    (k : string) : option pyval :=
  match runtime_overrides !! k with
  | Some v => Some v
  | None =>
      match model_kwargs self !! k with
      | Some v => Some v
      | None => explicit_params self !! k
      end
  end.

(** ** Sample endpoints and transports *)

(** An endpoint with the defaults the class declares for the sampling
    fields, and the given stop sequences, streaming flag and extras. *)
Definition endpoint (stops : list string) (stream : bool) (extras : dict)
  : HuggingFaceEndpoint :=
  {| max_new_tokens := 512; top_k := None; top_p := Some (95, -2)%Z;
     typical_p := Some (95, -2)%Z; temperature := Some (8, -1)%Z;
     repetition_penalty := None; return_full_text := false;
     truncate := None; stop_sequences := stops; seed := None;
     streaming := stream; do_sample := false; watermark := false;
     model_kwargs := extras; model := "gpt2" |}.

(** A server that accepts at most four stop sequences per request, as
    text-generation-inference does by default. *)
Definition limited_server : transport :=
  {| text_generation := λ _ _, Ok "Hi there";
     text_generation_stream := λ _ kwargs,
       match kwargs !! "stop" with
       | Some (VList l) =>
           if decide (length l ≤ 4) then Ok ["Hi"; " there"]
           else Raise (TransportError "stop: too many sequences")
       | _ => Ok ["Hi"; " there"]
       end |}.

(** A server that ends its answer with an end-of-text marker. *)
Definition hello_server : transport :=
  {| text_generation := λ _ _, Ok "Hello world<|end|>";
     text_generation_stream := λ _ _, Ok ["Hello"; " world"; "<|end|>"] |}.

(** A transport that always streams the same two fragments. *)
Definition cat_server : transport :=
  {| text_generation := λ _ _, Ok "The cat sat on <STOP> the mat";
     text_generation_stream := λ _ _,
       Ok ["The cat "; "sat on <STOP> the mat"] |}.

(** A transport that streams four fragments, the second with a stop
    marker in it. *)
Definition story_server : transport :=
  {| text_generation := λ _ _, Ok "The cat sat on <STOP> the mat. The end";
     text_generation_stream := λ _ _,
       Ok ["The cat "; "sat on <STOP> the mat"; ". The"; " end"] |}.

(** A transport whose stream does not depend on how often the leading
    stop sequences of the request are listed. *)
Definition stop_insensitive (t : transport) : Prop :=
  ∀ args kwargs base rest,
    kwargs !! "stop" = Some (VList (base ++ rest)) →
    text_generation_stream t args
      (<["stop" := VList (base ++ base ++ rest)]> kwargs)
    = text_generation_stream t args kwargs.

(** An effect that is an observer notification. *)
Definition is_token (e : effect) : Prop :=
  match e with OnLlmNewToken _ _ => True | TextGeneration _ _ _ => False end.

(** * Facts about the string operations *)

Section pystr_facts.
Import PyStr.

Lemma str_app_nil_l (s : string) : EmptyString +:+ s = s.
Proof. reflexivity. Qed.

Lemma str_app_cons (a : ascii) (s t : string) :
  String a s +:+ t = String a (s +:+ t).
Proof. reflexivity. Qed.

Lemma str_app_nil_r (s : string) : s +:+ EmptyString = s.
Proof. induction s as [|a s IH]; [done|]. by rewrite str_app_cons, IH. Qed.

Lemma str_app_assoc (s t u : string) : (s +:+ t) +:+ u = s +:+ t +:+ u.
Proof. induction s as [|a s IH]; [done|]. by rewrite !str_app_cons, IH. Qed.

Lemma str_length_app (s t : string) :
  String.length (s +:+ t) = String.length s + String.length t.
Proof. induction s as [|a s IH]; [done|]. rewrite str_app_cons. simpl. by rewrite IH. Qed.

Lemma str_length_zero (s : string) : String.length s = 0 → s = EmptyString.
Proof. by destruct s. Qed.

Lemma take_drop (n : nat) (s : string) : take n s +:+ drop n s = s.
Proof.
  revert s. induction n as [|n IH]; intros [|a s]; try done.
  simpl. by rewrite str_app_cons, IH.
Qed.

Lemma take_length (n : nat) (s : string) :
  String.length (take n s) = Nat.min n (String.length s).
Proof.
  revert s. induction n as [|n IH]; intros [|a s]; try done.
  simpl. by rewrite IH.
Qed.

Lemma take_app_length (s t : string) : take (String.length s) (s +:+ t) = s.
Proof.
  induction s as [|a s IH]; [by destruct t|].
  rewrite str_app_cons. simpl. by rewrite IH.
Qed.

Lemma drop_app_length (s t : string) : drop (String.length s) (s +:+ t) = t.
Proof. induction s as [|a s IH]; [by destruct t|]. by rewrite str_app_cons. Qed.

Lemma drop_all (s : string) : drop (String.length s) s = EmptyString.
Proof. induction s as [|a s IH]; done. Qed.

Lemma take_all (s : string) : take (String.length s) s = s.
Proof. induction s as [|a s IH]; [done|]. simpl. by rewrite IH. Qed.

Lemma startswith_spec (s p : string) :
  startswith s p = true ↔ ∃ r, s = p +:+ r.
Proof.
  revert s. induction p as [|a p IH]; intros s.
  - destruct s; simpl; split; eauto.
  - destruct s as [|b s]; simpl.
    + split; [done|]. intros [r Hr]. by rewrite str_app_cons in Hr.
    + case_decide as Hab.
      * subst b. rewrite IH. split; intros [r Hr]; exists r.
        -- by rewrite str_app_cons, Hr.
        -- rewrite str_app_cons in Hr. by simplify_eq.
      * split; [done|]. intros [r Hr]. rewrite str_app_cons in Hr.
        by simplify_eq.
Qed.

Lemma startswith_nil (s : string) : startswith s EmptyString = true.
Proof. by destruct s. Qed.

End pystr_facts.

Section find_facts.
Import PyStr.

Lemma drop_drop (n m : nat) (s : string) : drop n (drop m s) = drop (m + n) s.
Proof.
  revert s. induction m as [|m IH]; intros s; [done|].
  destruct s as [|a s]; simpl; [by destruct n|]. apply IH.
Qed.

Lemma drop_length (n : nat) (s : string) :
  String.length (drop n s) = String.length s - n.
Proof.
  revert s. induction n as [|n IH]; intros [|a s]; simpl; done || lia.
Qed.

Lemma drop_app_ge (p s : string) (n : nat) :
  n = String.length p → drop n (p +:+ s) = s.
Proof. intros ->. apply drop_app_length. Qed.

Lemma occurs_at_0 (sub s : string) :
  occurs_at sub s 0 ↔ startswith s sub = true.
Proof.
  rewrite startswith_spec. split.
  - intros (p & r & -> & Hp). apply str_length_zero in Hp as ->. eauto.
  - intros [r ->]. by exists EmptyString, r.
Qed.

Lemma occurs_at_S (sub : string) (a : ascii) (s : string) (i : nat) :
  occurs_at sub (String a s) (S i) ↔ occurs_at sub s i.
Proof.
  split.
  - intros (p & r & Hs & Hp). destruct p as [|b p]; [done|].
    rewrite str_app_cons in Hs. simplify_eq/=. by exists p, r.
  - intros (p & r & -> & Hp). exists (String a p), r.
    by rewrite str_app_cons; simpl; rewrite Hp.
Qed.

Lemma occurs_at_nil (sub : string) (i : nat) :
  occurs_at sub EmptyString i → sub = EmptyString ∧ i = 0.
Proof.
  intros (p & r & Hs & Hp). destruct p; [|done].
  destruct sub; [done|]. by rewrite str_app_nil_l, str_app_cons in Hs.
Qed.

Lemma find_occurs (s sub : string) (i : nat) :
  find s sub = Some i → occurs_at sub s i.
Proof.
  revert i. induction s as [|a s IH]; intros i; cbn [find].
  - destruct (startswith EmptyString sub) eqn:Hsw; [|done].
    intros [= <-]. by apply occurs_at_0.
  - destruct (startswith (String a s) sub) eqn:Hsw.
    + intros [= <-]. by apply occurs_at_0.
    + destruct (find s sub) as [k|]; [|done].
      intros [= <-]. apply occurs_at_S. by apply IH.
Qed.

Lemma find_least (s sub : string) (i j : nat) :
  find s sub = Some i → occurs_at sub s j → i ≤ j.
Proof.
  revert i j. induction s as [|a s IH]; intros i j; cbn [find].
  - destruct (startswith EmptyString sub) eqn:Hsw; [|done].
    intros [= <-] _. lia.
  - destruct (startswith (String a s) sub) eqn:Hsw.
    + intros [= <-] _. lia.
    + destruct (find s sub) as [k|]; [|done].
      intros [= <-] Hj. destruct j as [|j].
      * apply occurs_at_0 in Hj. congruence.
      * apply occurs_at_S in Hj. specialize (IH k j eq_refl Hj). lia.
Qed.

Lemma find_None (s sub : string) (j : nat) :
  find s sub = None → ¬ occurs_at sub s j.
Proof.
  revert j. induction s as [|a s IH]; intros j; cbn [find].
  - destruct (startswith EmptyString sub) eqn:Hsw; [done|].
    intros _ Hj. apply occurs_at_nil in Hj as [-> _]. done.
  - destruct (startswith (String a s) sub) eqn:Hsw; [done|].
    destruct (find s sub) as [k|]; [done|].
    intros _ Hj. destruct j as [|j].
    + apply occurs_at_0 in Hj. congruence.
    + apply occurs_at_S in Hj. by eapply IH.
Qed.

(** [find] returns the offset of the first occurrence. *)
Lemma find_Some (s sub : string) (i : nat) :
  find s sub = Some i ↔
  occurs_at sub s i ∧ ∀ j, occurs_at sub s j → i ≤ j.
Proof.
  split.
  - intros Hf. split; [by apply find_occurs|]. intros j. by apply find_least.
  - intros [Hi Hmin]. destruct (find s sub) as [k|] eqn:Hf.
    + f_equal. apply find_occurs in Hf as Hk.
      pose proof (find_least _ _ _ _ Hf Hi). apply Hmin in Hk. lia.
    + by apply find_None with (j := i) in Hf.
Qed.

Lemma contains_spec (sub s : string) :
  contains sub s = true ↔ ∃ p r, s = p +:+ sub +:+ r.
Proof.
  unfold contains. destruct (find s sub) as [i|] eqn:Hf.
  - apply find_occurs in Hf as (p & r & -> & _). split; eauto.
  - split; [done|]. intros (p & r & ->).
    exfalso. eapply find_None; [done|]. by exists p, r.
Qed.

Lemma contains_find (sub s : string) :
  contains sub s = true → ∃ i, find s sub = Some i.
Proof. unfold contains. destruct (find s sub); [eauto|done]. Qed.

Lemma contains_nil (s : string) : contains EmptyString s = true.
Proof. apply contains_spec. by exists EmptyString, s. Qed.

Lemma contains_in_nil (sub : string) : contains sub EmptyString = true → sub = EmptyString.
Proof.
  rewrite contains_spec. intros (p & r & Hs).
  destruct p; [|done]. by destruct sub.
Qed.

(** *** Slices with the bounds the endpoint uses *)

Lemma slice_to_nat (i : nat) (s : string) :
  slice_to (Z.of_nat i) s = take i s.
Proof.
  unfold slice_to, slice_index.
  destruct (Z.ltb_spec (Z.of_nat i) 0) as [?|_]; [lia|].
  rewrite Nat2Z.id. revert s. induction i as [|i IH]; intros [|a s]; try done.
  simpl. f_equal. apply IH.
Qed.

Lemma slice_from_neg_length (q s : string) :
  slice_from (- Z.of_nat (String.length q)) s =
    if decide (q = EmptyString) then s
    else drop (String.length s - String.length q) s.
Proof.
  unfold slice_from, slice_index. destruct q as [|a q].
  - by rewrite decide_True.
  - rewrite decide_False by done.
    destruct (Z.ltb_spec (- Z.of_nat (String.length (String a q))) 0) as [_|H];
      [|simpl in H; lia].
    f_equal. lia.
Qed.

Lemma slice_to_neg_length (q s : string) :
  slice_to (- Z.of_nat (String.length q)) s =
    if decide (q = EmptyString) then EmptyString
    else take (String.length s - String.length q) s.
Proof.
  unfold slice_to, slice_index. destruct q as [|a q].
  - rewrite decide_True by done. by destruct s.
  - rewrite decide_False by done.
    destruct (Z.ltb_spec (- Z.of_nat (String.length (String a q))) 0) as [_|H];
      [|simpl in H; lia].
    f_equal. lia.
Qed.

Lemma endswith_spec (s q : string) :
  endswith s q = true ↔ ∃ p, s = p +:+ q.
Proof.
  unfold endswith. rewrite bool_decide_eq_true. split.
  - intros H. exists (take (String.length s - String.length q) s).
    pose proof (take_drop (String.length s - String.length q) s) as Htd.
    by rewrite H in Htd.
  - intros [p ->]. rewrite str_length_app.
    replace (String.length p + String.length q - String.length q)
      with (String.length p) by lia.
    apply drop_app_length.
Qed.

Lemma strip_last_app (p q : string) :
  strip_last (String.length q) (p +:+ q) = p.
Proof.
  unfold strip_last. rewrite str_length_app.
  replace (String.length p + String.length q - String.length q)
    with (String.length p) by lia.
  apply take_app_length.
Qed.
End find_facts.

(** * The trailing trim of complete responses *)

Section trim_facts.
Import PyStr.

Lemma trim_step_endswith (response_text stop_seq : string) :
  trim_step response_text stop_seq =
    if endswith response_text stop_seq
    then strip_last (String.length stop_seq) response_text
    else response_text.
Proof.
  unfold trim_step, endswith, strip_last.
  rewrite slice_from_neg_length, slice_to_neg_length.
  destruct (decide (stop_seq = EmptyString)) as [->|Hne].
  - simpl. rewrite Nat.sub_0_r, drop_all, take_all.
    rewrite bool_decide_eq_true_2 by done. by case_decide.
  - case_decide as Heq.
    + by rewrite bool_decide_eq_true_2.
    + by rewrite bool_decide_eq_false_2.
Qed.

Lemma trim_step_cases (response_text stop_seq : string) :
  (trim_step response_text stop_seq = response_text
   ∧ (endswith response_text stop_seq = false ∨ stop_seq = EmptyString))
  ∨ (response_text = trim_step response_text stop_seq +:+ stop_seq
     ∧ endswith response_text stop_seq = true).
Proof.
  rewrite trim_step_endswith.
  destruct (endswith response_text stop_seq) eqn:He; [|by left; auto].
  right. split; [|done].
  apply endswith_spec in He as [p ->]. by rewrite strip_last_app.
Qed.

Lemma trim_stop_sequences_cons (q : string) (stops : list string) (t : string) :
  trim_stop_sequences (q :: stops) t = trim_stop_sequences stops (trim_step t q).
Proof. reflexivity. Qed.

Lemma trim_refines_spec (stops : list string) (response_text : string) :
  trim_stop_sequences stops response_text
  = trailing_trim_spec stops response_text.
Proof.
  revert response_text. induction stops as [|q stops IH]; intros t; [done|].
  rewrite trim_stop_sequences_cons, IH. simpl.
  by rewrite trim_step_endswith.
Qed.

Lemma trim_removes_suffixes (stops : list string) (response_text : string) :
  ∃ removed,
    sublist removed stops
    ∧ response_text
      = trim_stop_sequences stops response_text +:+ str_concat (reverse removed).
Proof.
  revert response_text. induction stops as [|q stops IH]; intros t.
  - exists []. split; [constructor|]. by rewrite str_app_nil_r.
  - rewrite trim_stop_sequences_cons.
    destruct (IH (trim_step t q)) as (removed & Hsub & Heq).
    destruct (trim_step_cases t q) as [[Hsame _]|[Hcut _]].
    + exists removed. split; [by constructor|]. by rewrite Hsame in Heq |- *.
    + exists (q :: removed). split; [by constructor|].
      rewrite reverse_cons. unfold str_concat. rewrite foldr_app. simpl.
      rewrite str_app_nil_r.
      rewrite Hcut at 1. rewrite Heq at 1.
      rewrite str_app_assoc. f_equal.
      generalize (reverse removed). intros l. induction l as [|x l IHl]; [done|].
      simpl. by rewrite str_app_assoc, IHl.
Qed.
End trim_facts.

(** C5. A response that ends with none of the merged stop sequences is
    returned unchanged by the trailing trim. *)
Theorem trailing_trim_identity (stops : list string) (response_text : string) :
  Forall (λ stop_seq, PyStr.endswith response_text stop_seq = false) stops →
  trim_stop_sequences stops response_text = response_text.
Proof.
  induction 1 as [|q stops Hq _ IH]; [done|].
  rewrite trim_stop_sequences_cons, trim_step_endswith, Hq. exact IH.
Qed.

Lemma trailing_trim_identity_witness :
  trim_stop_sequences ["<|end|>"; "</s>"; "world!"] "Hello world" = "Hello world".
Proof.
  apply (trailing_trim_identity ["<|end|>"; "</s>"; "world!"] "Hello world").
  repeat constructor.
Defined.

(** * The per-fragment scanner *)

Section scanner_facts.
Import PyStr.

Lemma stop_seq_found_from (acc : option string) (stops : list string)
    (response : string) :
  foldl (λ found stop_seq,
           if contains stop_seq response then Some stop_seq else found)
        acc stops
  = match last (matching stops response) with
    | Some q => Some q
    | None => acc
    end.
Proof.
  revert acc. induction stops as [|q stops IH]; intros acc; [done|].
  simpl. rewrite IH. unfold matching. rewrite filter_cons.
  destruct (contains q response) eqn:Hq.
  - rewrite decide_True by done. rewrite last_cons.
    by destruct (last (filter _ stops)).
  - rewrite decide_False by done. done.
Qed.

Lemma stop_seq_found_last (stops : list string) (response : string) :
  stop_seq_found stops response = last (matching stops response).
Proof.
  unfold stop_seq_found. rewrite stop_seq_found_from.
  by destruct (last _).
Qed.

Lemma stop_seq_found_Some (stops : list string) (response s : string) :
  stop_seq_found stops response = Some s →
  s ∈ stops ∧ contains s response = true.
Proof.
  rewrite stop_seq_found_last. intros H%last_Some_elem_of.
  apply list_elem_of_filter in H as [? ?]. done.
Qed.

(** Listing the leading stop sequences twice does not change the match. *)
Lemma stop_seq_found_repeat (base rest : list string) (response : string) :
  stop_seq_found (base ++ base ++ rest) response
  = stop_seq_found (base ++ rest) response.
Proof.
  rewrite !stop_seq_found_last. unfold matching.
  rewrite !filter_app, !last_app.
  destruct (last (filter _ rest)); [done|].
  by destruct (last (filter _ base)).
Qed.

Lemma truthy_Some (o : option string) :
  truthy o = true ↔ ∃ s, o = Some s ∧ s ≠ EmptyString.
Proof.
  destruct o as [[|a s]|]; simpl; split; try done.
  - intros (s & [= <-] & ?). done.
  - intros _. eexists. split; [done|]. done.
  - intros (s & ? & _). done.
Qed.

(** [response.index(stop_seq_found)] cannot fail: the text to yield is
    always defined. *)
Lemma text_to_yield_found (stops : list string) (response s : string) :
  stop_seq_found stops response = Some s → s ≠ EmptyString →
  ∃ i, find response s = Some i
       ∧ text_to_yield (Some s) response = Ok (take i response).
Proof.
  intros Hs Hne. apply stop_seq_found_Some in Hs as [_ Hc].
  apply contains_find in Hc as [i Hi]. exists i. split; [done|].
  unfold text_to_yield, index. rewrite Hi.
  destruct s; [done|]. simpl. by rewrite slice_to_nat.
Qed.

Lemma text_to_yield_not_found (found : option string) (response : string) :
  truthy found = false → text_to_yield found response = Ok response.
Proof. destruct found as [[|a s]|]; done. Qed.

Lemma text_to_yield_total (stops : list string) (response : string) :
  ∃ yield_text,
    text_to_yield (stop_seq_found stops response) response = Ok yield_text.
Proof.
  destruct (truthy (stop_seq_found stops response)) eqn:Ht.
  - apply truthy_Some in Ht as (s & Hs & Hne).
    destruct (text_to_yield_found _ _ _ Hs Hne) as (i & _ & Hy).
    rewrite Hs. eauto.
  - rewrite text_to_yield_not_found by done. eauto.
Qed.
End scanner_facts.

(** * The streaming loop *)

Ltac munfold :=
  unfold mbind, mret, M_bind, M_ret, result_bind, result_ret, lift,
    on_llm_new_token, PyDict.getitem, PyDict.iter in *.

Section stream_facts.
Import PyStr.
Context (c : client_kind) (run_manager : bool).
Context (invocation_params : dict) (stops : list string).
Hypothesis Hstops : invocation_params !! "stop" = Some (VList stops).

Lemma stream_step_eq (response yield_text : string) (w : list effect) :
  text_to_yield (stop_seq_found stops response) response = Ok yield_text →
  stream_step c run_manager invocation_params response w
  = (Ok (if decide (yield_text = EmptyString) then None
         else Some (mkGenerationChunk yield_text),
         truthy (stop_seq_found stops response)),
     w ++ token_of c run_manager yield_text).
Proof.
  intros Hy. unfold stream_step, token_of. munfold. rewrite Hstops. simpl.
  rewrite Hy. case_decide; simpl.
  - by rewrite app_nil_r.
  - destruct run_manager; simpl; [done|]. by rewrite app_nil_r.
Qed.

Lemma stream_loop_cons (response : string) (rest : list string)
    (yield_text : string) (w : list effect) :
  text_to_yield (stop_seq_found stops response) response = Ok yield_text →
  stream_loop c run_manager invocation_params (response :: rest) w
  = if truthy (stop_seq_found stops response)
    then (Ok (chunk_of yield_text, rest), w ++ token_of c run_manager yield_text)
    else
      match stream_loop c run_manager invocation_params rest
              (w ++ token_of c run_manager yield_text) with
      | (Ok (chunks, unread), w') => (Ok (chunk_of yield_text ++ chunks, unread), w')
      | (Raise e, w') => (Raise e, w')
      end.
Proof.
  intros Hy. cbn [stream_loop]. unfold mbind at 1. unfold M_bind at 1.
  rewrite (stream_step_eq _ _ _ Hy).
  assert (option_list (if decide (yield_text = EmptyString) then None
                       else Some (mkGenerationChunk yield_text))
          = chunk_of yield_text) as ->.
  { unfold chunk_of. by case_decide. }
  destruct (truthy _); [done|].
  munfold. by destruct (stream_loop _ _ _ _ _) as [[[??]|?] ?].
Qed.

(** Fragments without a match are passed on whole, one chunk each. *)
Lemma stream_loop_app (pre rest : list string) (w : list effect) :
  Forall (λ response, truthy (stop_seq_found stops response) = false) pre →
  stream_loop c run_manager invocation_params (pre ++ rest) w
  = match stream_loop c run_manager invocation_params rest
            (w ++ concat (token_of c run_manager <$> pre)) with
    | (Ok (chunks, unread), w') =>
        (Ok (concat (chunk_of <$> pre) ++ chunks, unread), w')
    | (Raise e, w') => (Raise e, w')
    end.
Proof.
  intros Hpre. revert w. induction Hpre as [|r pre Hr _ IH]; intros w.
  - simpl. rewrite app_nil_r.
    by destruct (stream_loop _ _ _ _ _) as [[[??]|?] ?].
  - rewrite <- app_comm_cons.
    rewrite (stream_loop_cons r _ r) by (by apply text_to_yield_not_found).
    rewrite Hr, IH. rewrite !fmap_cons. simpl. rewrite <- !app_assoc.
    destruct (stream_loop _ _ _ _ _) as [[[??]|?] ?]; [|done].
    by rewrite <- app_assoc.
Qed.

Lemma stream_loop_total (upstream : list string) (w : list effect) :
  ∃ chunks unread w',
    stream_loop c run_manager invocation_params upstream w
    = (Ok (chunks, unread), w').
Proof.
  revert w. induction upstream as [|r rest IH]; intros w; [by eexists _, _, _|].
  destruct (text_to_yield_total stops r) as [y Hy].
  rewrite (stream_loop_cons _ _ _ _ Hy).
  destruct (truthy _); [by eexists _, _, _|].
  destruct (IH (w ++ token_of c run_manager y)) as (ch & un & w' & ->).
  by eexists _, _, _.
Qed.
End stream_facts.

Lemma empty_text_cases (stops : list string) (response : string) :
  text_to_yield (stop_seq_found stops response) response = Ok EmptyString
  ↔ response = EmptyString
    ∨ ∃ s, stop_seq_found stops response = Some s ∧ s ≠ EmptyString
           ∧ PyStr.find response s = Some 0.
Proof.
  destruct (truthy (stop_seq_found stops response)) eqn:Ht.
  - apply truthy_Some in Ht as (s & Hs & Hne).
    destruct (text_to_yield_found _ _ _ Hs Hne) as (i & Hi & Hy).
    rewrite Hs, Hy. split.
    + intros [= Htake]. right. exists s. split; [done|]. split; [done|].
      destruct i as [|i]; [done|]. exfalso.
      apply find_occurs in Hi as (p & r & -> & Hp).
      destruct p; [done|]. by rewrite str_app_cons in Htake.
    + intros [->|(s' & [= <-] & _ & Hi')]; [by destruct i|].
      rewrite Hi in Hi'. injection Hi' as ->. by destruct response.
  - rewrite text_to_yield_not_found by done. split.
    + intros [= ->]. by left.
    + intros [->|(s & Hs & Hne & _)]; [done|].
      assert (truthy (stop_seq_found stops response) = true); [|congruence].
      apply truthy_Some. eauto.
Qed.

(** C2 (as amended). The scanner's match is the last entry, in the order
    of the stop list, among those that occur in the fragment: a later
    entry replaces the match of an earlier one. For ["foo","bar"] and the
    fragment "xx bar yy foo zz" the match is "bar". *)
Theorem scanner_selects_last_match :
  (∀ stops response,
     stop_seq_found stops response = last (matching stops response))
  ∧ matching ["foo"; "bar"] "xx bar yy foo zz" = ["foo"; "bar"]
  ∧ stop_seq_found ["foo"; "bar"] "xx bar yy foo zz" = Some "bar".
Proof. split; [apply stop_seq_found_last|]. split; reflexivity. Qed.

Lemma scanner_example_selects_bar :
  matching ["foo"; "bar"] "xx bar yy foo zz" = ["foo"; "bar"]
  ∧ stop_seq_found ["foo"; "bar"] "xx bar yy foo zz" ≠ Some "foo".
Proof. split; [reflexivity|]. vm_compute. discriminate. Qed.

(** C7. A fragment whose text to yield is empty (an empty fragment, or a
    match at offset 0, see [empty_text_cases]) produces no chunk and no
    observer notification, and the step does not raise; when the fragment
    has a match the loop still ends there, otherwise it goes on with the
    next fragment. *)
Theorem empty_emission_skipped (c : client_kind) (run_manager : bool)
    (invocation_params : dict) (stops : list string) (response : string)
    (rest : list string) (w : list effect) :
  invocation_params !! "stop" = Some (VList stops) →
  text_to_yield (stop_seq_found stops response) response = Ok EmptyString →
  stream_step c run_manager invocation_params response w
  = (Ok (None, truthy (stop_seq_found stops response)), w)
  ∧ stream_loop c run_manager invocation_params (response :: rest) w
    = if truthy (stop_seq_found stops response)
      then (Ok ([], rest), w)
      else stream_loop c run_manager invocation_params rest w.
Proof.
  intros Hparams Hy. split.
  - rewrite (stream_step_eq c run_manager _ stops Hparams _ EmptyString w Hy).
    unfold token_of. simpl. by rewrite app_nil_r.
  - rewrite (stream_loop_cons c run_manager _ stops Hparams _ _ EmptyString w Hy).
    unfold token_of, chunk_of. simpl. rewrite app_nil_r.
    destruct (truthy _); [done|].
    by destruct (stream_loop _ _ _ _ _) as [[[??]|?] ?].
Qed.

Lemma empty_emission_skipped_witness :
  stream_step SyncClient true {[ "stop" := VList ["<STOP>"] ]} "<STOP> the mat" []
  = (Ok (None, truthy (stop_seq_found ["<STOP>"] "<STOP> the mat")), [])
  ∧ stream_loop SyncClient true {[ "stop" := VList ["<STOP>"] ]}
      ("<STOP> the mat" :: ["unread"]) []
    = if truthy (stop_seq_found ["<STOP>"] "<STOP> the mat")
      then (Ok ([], ["unread"]), [])
      else stream_loop SyncClient true {[ "stop" := VList ["<STOP>"] ]} ["unread"] [].
Proof.
  apply (empty_emission_skipped SyncClient true {[ "stop" := VList ["<STOP>"] ]}
           ["<STOP>"] "<STOP> the mat" ["unread"] []); reflexivity.
Defined.

(** * Parameter merging *)

Section params_facts.

Lemma lookup_update (d other : dict) (k : string) :
  PyDict.update d other !! k
  = match other !! k with Some v => Some v | None => d !! k end.
Proof.
  unfold PyDict.update. rewrite lookup_union.
  by destruct (other !! k), (d !! k).
Qed.

Lemma params_three_layer (self : HuggingFaceEndpoint) (kwargs : dict)
    (k : string) :
  PyDict.update (_default_params self) kwargs !! k = three_layer self kwargs k.
Proof. unfold _default_params, three_layer. by rewrite !lookup_update. Qed.

Lemma explicit_params_stop (self : HuggingFaceEndpoint) :
  explicit_params self !! "stop" = Some (VList (stop_sequences self)).
Proof. reflexivity. Qed.

Lemma three_layer_stop_is_Some (self : HuggingFaceEndpoint) (kwargs : dict) :
  is_Some (three_layer self kwargs "stop").
Proof.
  unfold three_layer. rewrite explicit_params_stop.
  destruct (kwargs !! "stop"), (model_kwargs self !! "stop"); eauto.
Qed.

Lemma or_empty_default (runtime_stop : option (list string)) :
  or_empty runtime_stop = default [] runtime_stop.
Proof. by destruct runtime_stop as [[|a l]|]. Qed.

Lemma bind_params_args_ok (kwargs : dict) :
  params_kwargs kwargs → bind_params_args kwargs = Ok kwargs.
Proof.
  unfold params_kwargs, bind_params_args. rewrite !Forall_cons.
  intros (H1 & H2 & _). simpl. rewrite H1, H2.
  by rewrite !bool_decide_eq_false_2 by (by intros [? ?]).
Qed.

Lemma bind_params_args_clash (kwargs : dict) :
  ¬ params_kwargs kwargs → bind_params_args kwargs = Raise TypeError.
Proof.
  unfold params_kwargs, bind_params_args. intros Hnot. simpl.
  destruct (kwargs !! "self") as [v1|] eqn:H1.
  { by rewrite bool_decide_eq_true_2 by eauto. }
  destruct (kwargs !! "runtime_stop") as [v2|] eqn:H2.
  { rewrite (bool_decide_eq_true_2 (is_Some (Some v2))) by eauto.
    by rewrite orb_true_r. }
  exfalso. apply Hnot. by repeat constructor.
Qed.

(** The merge, for overrides that the call can be bound with. *)
Lemma invocation_params_eq (self : HuggingFaceEndpoint)
    (runtime_stop : option (list string)) (kwargs : dict) :
  params_kwargs kwargs →
  _invocation_params self runtime_stop kwargs
  = match three_layer self kwargs "stop" with
    | Some (VList base) =>
        Ok (<["stop" := VList (base ++ default [] runtime_stop)]>
              (PyDict.update (_default_params self) kwargs))
    | Some _ => Raise TypeError
    | None => Raise KeyError
    end.
Proof.
  intros Hbind. unfold _invocation_params, PyDict.getitem.
  rewrite (bind_params_args_ok _ Hbind). cbn [mbind result_bind].
  rewrite params_three_layer.
  destruct (three_layer self kwargs "stop") as [[]|]; try done.
  simpl. by rewrite or_empty_default.
Qed.

(** An override named like an argument of [_invocation_params] never
    reaches the merge. *)
Lemma invocation_params_clash (self : HuggingFaceEndpoint)
    (runtime_stop : option (list string)) (kwargs : dict) :
  ¬ params_kwargs kwargs →
  _invocation_params self runtime_stop kwargs = Raise TypeError.
Proof.
  intros Hnot. unfold _invocation_params.
  by rewrite (bind_params_args_clash _ Hnot).
Qed.

Lemma invocation_params_inv (self : HuggingFaceEndpoint)
    (runtime_stop : option (list string)) (kwargs P : dict) :
  _invocation_params self runtime_stop kwargs = Ok P →
  params_kwargs kwargs
  ∧ ∃ base,
      three_layer self kwargs "stop" = Some (VList base)
      ∧ P = <["stop" := VList (base ++ default [] runtime_stop)]>
              (PyDict.update (_default_params self) kwargs).
Proof.
  destruct (decide (params_kwargs kwargs)) as [Hbind|Hnot].
  - rewrite invocation_params_eq by done.
    destruct (three_layer self kwargs "stop") as [[]|]; try done.
    intros [= <-]. eauto.
  - by rewrite invocation_params_clash.
Qed.

(** What the merge raises is a [TypeError], whatever the inputs. *)
Lemma invocation_params_raises (self : HuggingFaceEndpoint)
    (runtime_stop : option (list string)) (kwargs : dict) (e : exn) :
  _invocation_params self runtime_stop kwargs = Raise e → e = TypeError.
Proof.
  destruct (decide (params_kwargs kwargs)) as [Hbind|Hnot].
  - rewrite invocation_params_eq by done.
    destruct (three_layer_stop_is_Some self kwargs) as [v ->].
    destruct v; congruence.
  - rewrite invocation_params_clash by done. congruence.
Qed.

End params_facts.




(** C1 (as amended). When neither the configuration's extras nor the
    runtime overrides define [stop], and the overrides are ones the merge
    can be called with (no entry named [runtime_stop] or [self]), the
    merge succeeds and its [stop] entry is the configuration's stop
    sequences followed by the runtime stop list, in that order and
    without deduplication; with no runtime stop list it is the
    configuration's stop sequences. *)
Theorem merged_stop_is_concatenation (self : HuggingFaceEndpoint)
    (runtime_stop : option (list string)) (runtime_overrides : dict) :
  model_kwargs self !! "stop" = None →
  runtime_overrides !! "stop" = None →
  params_kwargs runtime_overrides →
  ∃ params,
    _invocation_params self runtime_stop runtime_overrides = Ok params
    ∧ params !! "stop"
      = Some (VList (stop_sequences self ++ default [] runtime_stop))
    ∧ (default [] runtime_stop = [] →
       params !! "stop" = Some (VList (stop_sequences self))).
Proof.
  intros Hmk Hkw Hbind. rewrite invocation_params_eq by done.
  unfold three_layer at 1. rewrite Hkw, Hmk, explicit_params_stop.
  eexists. split; [done|]. rewrite lookup_insert_eq. split; [done|].
  intros ->. by rewrite app_nil_r.
Qed.

Lemma merged_stop_is_concatenation_witness :
  ∃ params,
    _invocation_params (endpoint ["a"; "b"] false {[ "details" := VBool true ]})
      (Some ["b"; "c"]) {[ "top_k" := VInt 5 ]} = Ok params
    ∧ params !! "stop" = Some (VList (["a"; "b"] ++ ["b"; "c"]))
    ∧ (["b"; "c"] = [] → params !! "stop" = Some (VList ["a"; "b"])).
Proof.
  apply (merged_stop_is_concatenation
           (endpoint ["a"; "b"] false {[ "details" := VBool true ]})
           (Some ["b"; "c"]) {[ "top_k" := VInt 5 ]});
    [reflexivity|reflexivity|repeat constructor].
Defined.

(** The extras of a configuration may define [stop] ([build_extra] only
    rejects the names of declared fields); the entry then replaces the
    configuration's stop sequences as the base of the merged list. *)
Lemma extras_replace_base_stop :
  model_kwargs_valid (endpoint ["a"] false {[ "stop" := VList ["b"] ]})
  ∧ ¬ ∃ params,
        _invocation_params (endpoint ["a"] false {[ "stop" := VList ["b"] ]})
          None ∅ = Ok params
        ∧ params !! "stop"
          = Some (VList (stop_sequences
                           (endpoint ["a"] false {[ "stop" := VList ["b"] ]})
                         ++ [])).
Proof.
  split; [apply (bool_decide_unpack _); by vm_compute|].
  intros (params & Hp & Hs). vm_compute in Hp. injection Hp as <-.
  vm_compute in Hs. discriminate.
Qed.

(** * The drivers *)

Section loop_results.
Import PyStr.

(** The chunks of a run depend on the parameters only through the
    matches of the scanner, and on neither the client nor the trace. *)
Lemma stream_loop_fst_ext (c1 c2 : client_kind) (rm1 rm2 : bool)
    (P1 P2 : dict) (s1 s2 : list string) (upstream : list string)
    (w1 w2 : list effect) :
  P1 !! "stop" = Some (VList s1) →
  P2 !! "stop" = Some (VList s2) →
  (∀ r, stop_seq_found s1 r = stop_seq_found s2 r) →
  fst (stream_loop c1 rm1 P1 upstream w1)
  = fst (stream_loop c2 rm2 P2 upstream w2).
Proof.
  intros H1 H2 Hs. revert w1 w2.
  induction upstream as [|r rest IH]; intros w1 w2; [done|].
  destruct (text_to_yield_total s1 r) as [y Hy].
  rewrite (stream_loop_cons c1 rm1 P1 s1 H1 r rest y w1 Hy).
  rewrite Hs in Hy.
  rewrite (stream_loop_cons c2 rm2 P2 s2 H2 r rest y w2 Hy).
  rewrite Hs. destruct (truthy _); [done|].
  specialize (IH (w1 ++ token_of c1 rm1 y) (w2 ++ token_of c2 rm2 y)).
  destruct (stream_loop c1 _ _ _ _) as [[[??]|?] ?],
           (stream_loop c2 _ _ _ _) as [[[??]|?] ?]; simpl in *;
    by simplify_eq.
Qed.

Lemma token_of_is_token (c : client_kind) (rm : bool) (y : string) :
  Forall is_token (token_of c rm y).
Proof.
  unfold token_of. case_decide; [constructor|].
  destruct rm; repeat constructor.
Qed.

(** A run of the loop never raises and only adds notifications. *)
Lemma stream_loop_trace (c : client_kind) (rm : bool) (P : dict)
    (stops : list string) (upstream : list string) (w : list effect) :
  P !! "stop" = Some (VList stops) →
  ∃ chunks unread tokens,
    stream_loop c rm P upstream w = (Ok (chunks, unread), w ++ tokens)
    ∧ Forall is_token tokens.
Proof.
  intros HP. revert w. induction upstream as [|r rest IH]; intros w.
  { exists [], [], []. by rewrite app_nil_r. }
  destruct (text_to_yield_total stops r) as [y Hy].
  rewrite (stream_loop_cons c rm P stops HP _ _ _ _ Hy).
  destruct (truthy _).
  - eexists _, _, _. split; [done|]. apply token_of_is_token.
  - destruct (IH (w ++ token_of c rm y)) as (ch & un & tk & -> & Htk).
    exists (chunk_of y ++ ch), un, (token_of c rm y ++ tk).
    rewrite app_assoc. split; [done|].
    apply Forall_app. split; [apply token_of_is_token|done].
Qed.
End loop_results.

Section driver_facts.
Context (client async_client : transport).

Lemma keywords_ok (explicit : list (string * pyval)) (splat : dict) :
  Forall (λ kv, splat !! kv.1 = None) explicit →
  PyDict.keywords explicit splat
  = Ok (PyDict.update splat (PyDict.display explicit)).
Proof.
  intros H. unfold PyDict.keywords.
  assert (existsb (λ kv, bool_decide (is_Some (splat !! kv.1))) explicit
          = false) as ->; [|done].
  induction H as [|kv l Hkv _ IH]; [done|].
  simpl. rewrite IH, Hkv. rewrite bool_decide_eq_false_2; [done|].
  by intros [? ?].
Qed.

Lemma keywords_clash (explicit : list (string * pyval)) (splat : dict) :
  Exists (λ kv, is_Some (splat !! kv.1)) explicit →
  PyDict.keywords explicit splat = Raise TypeError.
Proof.
  intros H. unfold PyDict.keywords.
  assert (existsb (λ kv, bool_decide (is_Some (splat !! kv.1))) explicit
          = true) as ->; [|done].
  induction H as [kv l Hkv|kv l _ IH]; simpl.
  - by rewrite bool_decide_eq_true_2.
  - rewrite IH. by destruct (bool_decide _).
Qed.

(** The decoder, once its parameters and keywords are known. *)
Lemma stream_with_eq (c : client_kind) (self : HuggingFaceEndpoint)
    (prompt : string) (stop : option (list string)) (rm : bool)
    (kwargs P kw : dict) (w : list effect) :
  _invocation_params self stop kwargs = Ok P →
  PyDict.keywords [("stream", VBool true)] P = Ok kw →
  stream_with client async_client c self prompt stop rm kwargs w
  = match text_generation_stream (the_client client async_client c)
            [VStr prompt] kw with
    | Ok responses =>
        match stream_loop c rm P responses
                (w ++ [TextGeneration c [VStr prompt] kw]) with
        | (Ok (chunks, _), w') => (Ok chunks, w')
        | (Raise e, w') => (Raise e, w')
        end
    | Raise e => (Raise e, w ++ [TextGeneration c [VStr prompt] kw])
    end.
Proof.
  intros HP Hkw. unfold stream_with, call_text_generation_stream.
  munfold. rewrite HP, Hkw.
  destruct (text_generation_stream _ _ _); [|done].
  by destruct (stream_loop _ _ _ _ _) as [[[??]|?] ?].
Qed.

Lemma three_layer_no_override (self : HuggingFaceEndpoint) (kwargs : dict)
    (k : string) :
  kwargs !! k = None → three_layer self kwargs k = _default_params self !! k.
Proof.
  intros Hk. unfold three_layer, _default_params.
  by rewrite Hk, lookup_update.
Qed.

Lemma params_kwargs_update (d kwargs : dict) :
  params_kwargs (PyDict.update d kwargs) → params_kwargs kwargs.
Proof.
  unfold params_kwargs. intros H. eapply Forall_impl; [exact H|].
  simpl. intros k Hk. rewrite lookup_update in Hk.
  by destruct (kwargs !! k).
Qed.

Lemma params_kwargs_rest (P : dict) (v : pyval) :
  params_kwargs P → params_kwargs (delete "stop" (<["stop" := v]> P)).
Proof.
  unfold params_kwargs. rewrite !Forall_cons. intros (H1 & H2 & _).
  repeat split; [| |constructor];
    by rewrite lookup_delete_ne, lookup_insert_ne.
Qed.

(** The parameters [_call] and [_acall] hand to the decoder, merged by
    it a second time: everything as before, the base stop list twice. *)
Lemma remerge (self : HuggingFaceEndpoint) (kwargs : dict)
    (base merged : list string) :
  params_kwargs (PyDict.update (_default_params self) kwargs) →
  _default_params self !! "stop" = Some (VList base) →
  _invocation_params self (Some merged)
    (delete "stop"
       (<["stop" := VList merged]>
          (PyDict.update (_default_params self) kwargs)))
  = Ok (<["stop" := VList (base ++ merged)]>
          (PyDict.update (_default_params self) kwargs)).
Proof.
  intros Hbind Hbase.
  rewrite invocation_params_eq by (by apply params_kwargs_rest).
  rewrite three_layer_no_override by apply lookup_delete_eq.
  rewrite Hbase. simpl. f_equal. apply map_eq. intros k.
  destruct (decide (k = "stop")) as [->|Hk].
  - by rewrite !lookup_insert_eq.
  - rewrite !lookup_insert_ne by done. rewrite !lookup_update.
    rewrite lookup_delete_ne, lookup_insert_ne by done.
    rewrite lookup_update.
    by destruct (kwargs !! k), (_default_params self !! k).
Qed.

Lemma bind_stream_args_ok (P : dict) (merged : list string) :
  Forall (λ k, P !! k = None) ["self"; "prompt"; "run_manager"] →
  P !! "stop" = Some (VList merged) →
  bind_stream_args P = Ok (Some merged, delete "stop" P).
Proof.
  intros Hfree Hstop. unfold bind_stream_args.
  rewrite !Forall_cons in Hfree. destruct Hfree as (H1 & H2 & H3 & _).
  simpl. rewrite H1, H2, H3, Hstop.
  rewrite !bool_decide_eq_false_2 by (by intros [? ?]). done.
Qed.

Lemma bind_stream_args_clash (P : dict) :
  Exists (λ k, is_Some (P !! k)) ["self"; "prompt"; "run_manager"] →
  bind_stream_args P = Raise TypeError.
Proof.
  intros H. unfold bind_stream_args.
  assert (existsb (λ k, bool_decide (is_Some (P !! k)))
            ["self"; "prompt"; "run_manager"] = true) as ->; [|done].
  induction H as [k l Hk|k l _ IH]; simpl.
  - by rewrite bool_decide_eq_true_2.
  - rewrite IH. by destruct (bool_decide _).
Qed.

Section streaming_call.
Context (self : HuggingFaceEndpoint) (prompt : string).
Context (stop : option (list string)) (rm : bool) (kwargs : dict).
Context (base : list string).
Hypothesis Hstreaming : streaming self = true.
Hypothesis Hbase : _default_params self !! "stop" = Some (VList base).
Hypothesis Hkwargs : kwargs !! "stop" = None.
Hypothesis Hbind : params_kwargs (PyDict.update (_default_params self) kwargs).

Let merged : list string := base ++ default [] stop.
Let P1 : dict :=
  <["stop" := VList merged]> (PyDict.update (_default_params self) kwargs).
Let P2 : dict :=
  <["stop" := VList (base ++ merged)]>
    (PyDict.update (_default_params self) kwargs).

Lemma first_merge : _invocation_params self stop kwargs = Ok P1.
Proof.
  rewrite invocation_params_eq by (by eapply params_kwargs_update).
  by rewrite three_layer_no_override, Hbase.
Qed.

Lemma second_merge :
  _invocation_params self (Some merged) (delete "stop" P1) = Ok P2.
Proof. by apply remerge. Qed.

Lemma call_streaming_eq (w : list effect) :
  Forall (λ k, PyDict.update (_default_params self) kwargs !! k = None)
         ["self"; "prompt"; "run_manager"] →
  _call client async_client self prompt stop rm kwargs w
  = match _stream client async_client self prompt (Some merged) rm
            (delete "stop" P1) w with
    | (Ok chunks, w') => (Ok (join_chunks chunks), w')
    | (Raise e, w') => (Raise e, w')
    end
  ∧ _acall client async_client self prompt stop rm kwargs w
    = match _astream client async_client self prompt (Some merged) rm
              (delete "stop" P1) w with
      | (Ok chunks, w') => (Ok (join_chunks chunks), w')
      | (Raise e, w') => (Raise e, w')
      end.
Proof.
  intros Hfree.
  assert (bind_stream_args P1 = Ok (Some merged, delete "stop" P1)) as Hb.
  { apply bind_stream_args_ok; [|apply lookup_insert_eq].
    eapply Forall_impl; [exact Hfree|]. simpl. intros k Hk.
    unfold P1. destruct (decide (k = "stop")) as [->|Hne].
    - by rewrite lookup_update, Hkwargs, Hbase in Hk.
    - by rewrite lookup_insert_ne. }
  unfold _call, _acall. munfold.
  rewrite first_merge, Hstreaming, Hb. split.
  - by destruct (_stream _ _ _ _ _ _ _ _) as [[?|?] ?].
  - by destruct (_astream _ _ _ _ _ _ _ _) as [[?|?] ?].
Qed.

Lemma stream_with_raise (c : client_kind) (stop' : option (list string))
    (kwargs' P : dict) (e : exn) (w : list effect) :
  _invocation_params self stop' kwargs' = Ok P →
  PyDict.keywords [("stream", VBool true)] P = Raise e →
  stream_with client async_client c self prompt stop' rm kwargs' w
  = (Raise e, w).
Proof. intros HP Hkw. unfold stream_with. munfold. by rewrite HP, Hkw. Qed.

Lemma stream_keywords (P : dict) :
  P !! "stream" = None →
  PyDict.keywords [("stream", VBool true)] P
  = Ok (<["stream" := VBool true]> P).
Proof.
  intros HP. rewrite keywords_ok by (by repeat constructor).
  f_equal. apply map_eq. intros k. rewrite lookup_update.
  unfold PyDict.display. simpl.
  destruct (decide (k = "stream")) as [->|Hk].
  - by rewrite !lookup_insert_eq.
  - by rewrite !lookup_insert_ne, lookup_empty.
Qed.

(** The request of the decoder when reached through [_call] or
    [_acall]: the base stop list is there twice. *)
Lemma remerged_stream_trace (c : client_kind) (w : list effect) :
  PyDict.update (_default_params self) kwargs !! "stream" = None →
  ∃ kw tokens,
    snd (stream_with client async_client c self prompt (Some merged) rm
           (delete "stop" P1) w)
    = w ++ TextGeneration c [VStr prompt] kw :: tokens
    ∧ kw !! "stop" = Some (VList (base ++ base ++ default [] stop))
    ∧ Forall is_token tokens.
Proof.
  intros Hstream.
  assert (P2 !! "stream" = None) as HP2.
  { unfold P2. by rewrite lookup_insert_ne. }
  rewrite (stream_with_eq _ _ _ _ _ _ _ _ _ second_merge
             (stream_keywords _ HP2)).
  exists (<["stream" := VBool true]> P2).
  destruct (text_generation_stream _ _ _) as [responses|e].
  - destruct (stream_loop_trace c rm P2 (base ++ merged) responses
                (w ++ [TextGeneration c [VStr prompt]
                         (<["stream" := VBool true]> P2)]))
      as (ch & un & tk & -> & Htk); [apply lookup_insert_eq|].
    exists tk. simpl. rewrite <- app_assoc. split; [done|].
    split; [|done]. rewrite lookup_insert_ne by done. apply lookup_insert_eq.
  - exists []. simpl. split; [done|]. split; [|constructor].
    rewrite lookup_insert_ne by done. apply lookup_insert_eq.
Qed.

(** With a transport that does not look at repetitions in the stop
    list, the decoder yields the same chunks either way. *)
Lemma remerged_stream_chunks (c : client_kind) (w : list effect) :
  stop_insensitive (the_client client async_client c) →
  fst (stream_with client async_client c self prompt (Some merged) rm
         (delete "stop" P1) w)
  = fst (stream_with client async_client c self prompt stop rm kwargs w).
Proof.
  intros Hins.
  assert (P2 !! "stream" = P1 !! "stream") as Hsame.
  { unfold P1, P2. by rewrite !lookup_insert_ne. }
  destruct (P1 !! "stream") as [v|] eqn:H1.
  - rewrite (stream_with_raise c _ _ P2 TypeError), (stream_with_raise c _ _ P1 TypeError);
      [done|apply first_merge| |apply second_merge|].
    + apply keywords_clash. constructor. simpl. by rewrite H1.
    + apply keywords_clash. constructor. simpl. by rewrite Hsame.
  - rewrite (stream_with_eq _ _ _ _ _ _ _ _ _ second_merge
               (stream_keywords _ Hsame)).
    rewrite (stream_with_eq _ _ _ _ _ _ _ _ _ first_merge
               (stream_keywords _ H1)).
    assert (<["stream" := VBool true]> P2
            = <["stop" := VList (base ++ base ++ default [] stop)]>
                (<["stream" := VBool true]> P1)) as ->.
    { unfold P1, P2, merged. apply map_eq. intros k.
      destruct (decide (k = "stop")) as [->|Hk].
      - rewrite lookup_insert_ne by done. by rewrite !lookup_insert_eq.
      - rewrite (lookup_insert_ne _ "stop" k) by done.
        destruct (decide (k = "stream")) as [->|Hk'].
        + by rewrite !lookup_insert_eq.
        + by rewrite !lookup_insert_ne. }
    rewrite Hins.
    2:{ rewrite lookup_insert_ne by done. apply lookup_insert_eq. }
    destruct (text_generation_stream _ _ _) as [responses|e]; [|done].
    match goal with
    | |- fst (match ?a with _ => _ end) = fst (match ?b with _ => _ end) =>
        assert (fst a = fst b) as Hfst
    end.
    { apply stream_loop_fst_ext with (s1 := base ++ merged) (s2 := merged).
      - apply lookup_insert_eq.
      - apply lookup_insert_eq.
      - intros r. apply stop_seq_found_repeat. }
    destruct (stream_loop c rm P2 _ _) as [[[??]|?] ?],
             (stream_loop c rm P1 _ _) as [[[??]|?] ?];
      simpl in *; by simplify_eq.
Qed.
End streaming_call.
End driver_facts.

(** A decoder whose transport streams [pre ++ frag :: post], where no
    fragment of [pre] has a match and [frag] has one. *)
Lemma stream_with_trims_and_stops (client async_client : transport)
    (c : client_kind) (self : HuggingFaceEndpoint) (prompt : string)
    (stop : option (list string)) (run_manager : bool) (kwargs params kw : dict)
    (stops pre : list string) (frag : string) (post : list string)
    (s : string) (w : list effect) :
  _invocation_params self stop kwargs = Ok params →
  params !! "stop" = Some (VList stops) →
  PyDict.keywords [("stream", VBool true)] params = Ok kw →
  text_generation_stream (the_client client async_client c) [VStr prompt] kw
  = Ok (pre ++ frag :: post) →
  Forall (λ r, truthy (stop_seq_found stops r) = false) pre →
  stop_seq_found stops frag = Some s →
  truthy (Some s) = true →
  ∃ i,
    PyStr.find frag s = Some i
    ∧ (∀ j, occurs_at s frag j → i ≤ j)
    ∧ (∃ rest, frag = PyStr.take i frag +:+ s +:+ rest)
    ∧ stream_with client async_client c self prompt stop run_manager kwargs w
      = (Ok (concat (chunk_of <$> pre) ++ chunk_of (PyStr.take i frag)),
         w ++ TextGeneration c [VStr prompt] kw
           :: concat (token_of c run_manager <$> pre)
           ++ token_of c run_manager (PyStr.take i frag))
    ∧ stream_loop c run_manager params (pre ++ frag :: post)
        (w ++ [TextGeneration c [VStr prompt] kw])
      = (Ok (concat (chunk_of <$> pre) ++ chunk_of (PyStr.take i frag), post),
         w ++ TextGeneration c [VStr prompt] kw
           :: concat (token_of c run_manager <$> pre)
           ++ token_of c run_manager (PyStr.take i frag)).
Proof.
  intros Hparams Hstops Hkw Hup Hpre Hs Ht.
  assert (s ≠ EmptyString) as Hne by (by destruct s).
  destruct (text_to_yield_found _ _ _ Hs Hne) as (i & Hi & Hy).
  exists i. split; [done|]. split; [intros j; by apply find_least|].
  split.
  { apply find_occurs in Hi as (p & r & -> & <-).
    exists r. by rewrite take_app_length. }
  assert (stream_loop c run_manager params (pre ++ frag :: post)
            (w ++ [TextGeneration c [VStr prompt] kw])
          = (Ok (concat (chunk_of <$> pre) ++ chunk_of (PyStr.take i frag), post),
             w ++ TextGeneration c [VStr prompt] kw
               :: concat (token_of c run_manager <$> pre)
               ++ token_of c run_manager (PyStr.take i frag))) as Hloop.
  { rewrite (stream_loop_app c run_manager params stops Hstops pre _ _ Hpre).
    rewrite (stream_loop_cons c run_manager params stops Hstops frag post
               (PyStr.take i frag)) by (by rewrite Hs).
    rewrite Hs, Ht. by rewrite <- !app_assoc. }
  split; [|exact Hloop].
  rewrite (stream_with_eq client async_client c self prompt stop run_manager
             kwargs params kw w Hparams Hkw).
  by rewrite Hup, Hloop.
Qed.

(** C3. When a fragment has a match (the test [if stop_seq_found] of the
    decoder succeeds on the scanner's result), the text emitted for it is
    the part of the fragment before the first occurrence of the selected
    stop sequence; the stream ends there, and the fragments after it are
    neither requested nor emitted. So [_stream], when the transport
    answers its one request with fragments of which one has a match and
    none before it has, yields the earlier fragments whole (the empty
    ones apart), then that part, and nothing more; [_astream] likewise;
    and the loop of the decoder leaves the later fragments unread. For
    the fragments "The cat " and "sat on <STOP> the mat" with ["<STOP>"],
    the chunks are "The cat " and "sat on ". *)
Theorem stream_trims_and_stops :
  (∀ client async_client self prompt stop run_manager kwargs params kw
     stops pre frag post s w,
     _invocation_params self stop kwargs = Ok params →
     params !! "stop" = Some (VList stops) →
     PyDict.keywords [("stream", VBool true)] params = Ok kw →
     text_generation_stream client [VStr prompt] kw = Ok (pre ++ frag :: post) →
     Forall (λ r, truthy (stop_seq_found stops r) = false) pre →
     stop_seq_found stops frag = Some s →
     truthy (Some s) = true →
     ∃ i,
       PyStr.find frag s = Some i
       ∧ (∀ j, occurs_at s frag j → i ≤ j)
       ∧ (∃ rest, frag = PyStr.take i frag +:+ s +:+ rest)
       ∧ _stream client async_client self prompt stop run_manager kwargs w
         = (Ok (concat (chunk_of <$> pre) ++ chunk_of (PyStr.take i frag)),
            w ++ TextGeneration SyncClient [VStr prompt] kw
              :: concat (token_of SyncClient run_manager <$> pre)
              ++ token_of SyncClient run_manager (PyStr.take i frag))
       ∧ stream_loop SyncClient run_manager params (pre ++ frag :: post)
           (w ++ [TextGeneration SyncClient [VStr prompt] kw])
         = (Ok (concat (chunk_of <$> pre) ++ chunk_of (PyStr.take i frag), post),
            w ++ TextGeneration SyncClient [VStr prompt] kw
              :: concat (token_of SyncClient run_manager <$> pre)
              ++ token_of SyncClient run_manager (PyStr.take i frag)))
  ∧ (∀ client async_client self prompt stop run_manager kwargs params kw
       stops pre frag post s w,
       _invocation_params self stop kwargs = Ok params →
       params !! "stop" = Some (VList stops) →
       PyDict.keywords [("stream", VBool true)] params = Ok kw →
       text_generation_stream async_client [VStr prompt] kw
       = Ok (pre ++ frag :: post) →
       Forall (λ r, truthy (stop_seq_found stops r) = false) pre →
       stop_seq_found stops frag = Some s →
       truthy (Some s) = true →
       ∃ i,
         PyStr.find frag s = Some i
         ∧ _astream client async_client self prompt stop run_manager kwargs w
           = (Ok (concat (chunk_of <$> pre) ++ chunk_of (PyStr.take i frag)),
              w ++ TextGeneration AsyncClient [VStr prompt] kw
                :: concat (token_of AsyncClient run_manager <$> pre)
                ++ token_of AsyncClient run_manager (PyStr.take i frag)))
  ∧ (∀ c run_manager invocation_params stops pre frag post s w,
       invocation_params !! "stop" = Some (VList stops) →
       Forall (λ r, truthy (stop_seq_found stops r) = false) pre →
       stop_seq_found stops frag = Some s →
       truthy (Some s) = true →
       ∃ i,
         PyStr.find frag s = Some i
         ∧ (∀ j, occurs_at s frag j → i ≤ j)
         ∧ (∃ rest, frag = PyStr.take i frag +:+ s +:+ rest)
         ∧ stream_loop c run_manager invocation_params (pre ++ frag :: post) w
           = (Ok (concat (chunk_of <$> pre) ++ chunk_of (PyStr.take i frag), post),
              w ++ concat (token_of c run_manager <$> pre)
                ++ token_of c run_manager (PyStr.take i frag)))
  ∧ stream_loop SyncClient true {[ "stop" := VList ["<STOP>"] ]}
      ["The cat "; "sat on <STOP> the mat"] []
    = (Ok ([mkGenerationChunk "The cat "; mkGenerationChunk "sat on "], []),
       [OnLlmNewToken SyncClient "The cat "; OnLlmNewToken SyncClient "sat on "])
  ∧ fst (_stream cat_server cat_server (endpoint ["<STOP>"] false ∅)
           "Tell me" None true ∅ [])
    = Ok [mkGenerationChunk "The cat "; mkGenerationChunk "sat on "].
Proof.
  split; [|split; [|split; [|split; reflexivity]]].
  - intros client async_client self prompt stop rm kwargs params kw
      stops pre frag post s w Hparams Hstops Hkw Hup Hpre Hs Ht.
    apply (stream_with_trims_and_stops client async_client SyncClient self
             prompt stop rm kwargs params kw stops pre frag post s w);
      done.
  - intros client async_client self prompt stop rm kwargs params kw
      stops pre frag post s w Hparams Hstops Hkw Hup Hpre Hs Ht.
    destruct (stream_with_trims_and_stops client async_client AsyncClient self
                prompt stop rm kwargs params kw stops pre frag post s w)
      as (i & Hi & _ & _ & Hrun & _); try done.
    by exists i.
  - intros c rm params stops pre frag post s w Hparams Hpre Hs Ht.
    assert (s ≠ EmptyString) as Hne by (by destruct s).
    destruct (text_to_yield_found _ _ _ Hs Hne) as (i & Hi & Hy).
    exists i. split; [done|]. split; [intros j; by apply find_least|].
    split.
    { apply find_occurs in Hi as (p & r & -> & <-).
      exists r. by rewrite take_app_length. }
    rewrite (stream_loop_app c rm params stops Hparams pre _ w Hpre).
    rewrite (stream_loop_cons c rm params stops Hparams frag post
               (PyStr.take i frag)) by (by rewrite Hs).
    rewrite Hs, Ht. by rewrite app_assoc.
Qed.

Lemma stream_trims_and_stops_witness :
  ∃ i kw,
    PyStr.find "sat on <STOP> the mat" "<STOP>" = Some i
    ∧ _stream story_server story_server (endpoint ["."] false ∅) "Tell me"
        (Some ["<STOP>"]) true {[ "seed" := VInt 7 ]} []
      = (Ok (concat (chunk_of <$> ["The cat "])
             ++ chunk_of (PyStr.take i "sat on <STOP> the mat")),
         [] ++ TextGeneration SyncClient [VStr "Tell me"] kw
            :: concat (token_of SyncClient true <$> ["The cat "])
            ++ token_of SyncClient true (PyStr.take i "sat on <STOP> the mat")).
Proof.
  destruct (proj1 stream_trims_and_stops story_server story_server
              (endpoint ["."] false ∅) "Tell me" (Some ["<STOP>"]) true
              {[ "seed" := VInt 7 ]}
              (<["stop" := VList (["."] ++ ["<STOP>"])]>
                 (PyDict.update (_default_params (endpoint ["."] false ∅))
                    {[ "seed" := VInt 7 ]}))
              (PyDict.update
                 (<["stop" := VList (["."] ++ ["<STOP>"])]>
                    (PyDict.update (_default_params (endpoint ["."] false ∅))
                       {[ "seed" := VInt 7 ]}))
                 (PyDict.display [("stream", VBool true)]))
              ["."; "<STOP>"] ["The cat "] "sat on <STOP> the mat"
              [". The"; " end"] "<STOP>" [])
    as (i & Hi & _ & _ & Hrun & _).
  - vm_compute. reflexivity.
  - reflexivity.
  - vm_compute. reflexivity.
  - reflexivity.
  - repeat constructor.
  - reflexivity.
  - reflexivity.
  - exists i. eexists. split; [exact Hi | exact Hrun].
Defined.

Section driver_results.
Context (client async_client : transport).

Lemma explicit_params_free (self : HuggingFaceEndpoint) :
  Forall (λ k, explicit_params self !! k = None)
         ["self"; "prompt"; "run_manager"; "stream"].
Proof. repeat constructor. Qed.

Lemma merged_free (self : HuggingFaceEndpoint) (kwargs : dict) (k : string) :
  kwargs !! k = None → model_kwargs self !! k = None →
  explicit_params self !! k = None →
  PyDict.update (_default_params self) kwargs !! k = None.
Proof.
  intros Hk Hm He. unfold _default_params.
  by rewrite !lookup_update, Hk, Hm.
Qed.

Lemma default_stop_is_Some (self : HuggingFaceEndpoint) :
  is_Some (_default_params self !! "stop").
Proof.
  rewrite <- (three_layer_no_override self ∅) by apply lookup_empty.
  apply three_layer_stop_is_Some.
Qed.

Lemma drivers_raise (self : HuggingFaceEndpoint) (prompt : string)
    (stop : option (list string)) (rm : bool) (kwargs : dict) (e : exn)
    (w : list effect) :
  _invocation_params self stop kwargs = Raise e →
  _call client async_client self prompt stop rm kwargs w = (Raise e, w)
  ∧ _acall client async_client self prompt stop rm kwargs w = (Raise e, w)
  ∧ ∀ c, stream_with client async_client c self prompt stop rm kwargs w
         = (Raise e, w).
Proof.
  intros H. unfold _call, _acall, stream_with. munfold. by rewrite H.
Qed.
End driver_results.

(** An entry named [runtime_stop] stops every path before the request:
    as an override it is refused by the first merge; as an extra of the
    configuration it passes the first merge of [_call] and [_acall], is
    handed to the decoder among the merged parameters, and is refused by
    the decoder's own merge. *)
Lemma runtime_stop_entry_is_rejected (client async_client : transport)
    (self : HuggingFaceEndpoint) (prompt : string)
    (stop : option (list string)) (run_manager : bool) (kwargs : dict)
    (w : list effect) :
  (is_Some (kwargs !! "runtime_stop") →
   _call client async_client self prompt stop run_manager kwargs w
   = (Raise TypeError, w)
   ∧ _acall client async_client self prompt stop run_manager kwargs w
     = (Raise TypeError, w)
   ∧ _stream client async_client self prompt stop run_manager kwargs w
     = (Raise TypeError, w)
   ∧ _astream client async_client self prompt stop run_manager kwargs w
     = (Raise TypeError, w))
  ∧ (streaming self = true →
     is_Some (model_kwargs self !! "runtime_stop") →
     _call client async_client self prompt stop run_manager kwargs w
     = (Raise TypeError, w)
     ∧ _acall client async_client self prompt stop run_manager kwargs w
       = (Raise TypeError, w)).
Proof.
  split.
  - intros [v Hv].
    assert (_invocation_params self stop kwargs = Raise TypeError) as Hraise.
    { apply invocation_params_clash. unfold params_kwargs.
      rewrite !Forall_cons. intros (_ & H & _). congruence. }
    destruct (drivers_raise client async_client self prompt stop run_manager
                kwargs TypeError w Hraise) as (-> & -> & Hs).
    unfold _stream, _astream. by rewrite !Hs.
  - intros Hstreaming [v Hv]. unfold _call, _acall. munfold.
    destruct (_invocation_params self stop kwargs) as [P|e] eqn:HP.
    2:{ by rewrite (invocation_params_raises _ _ _ _ HP). }
    rewrite Hstreaming.
    destruct (bind_stream_args P) as [[stop' kwargs']|e] eqn:Hb.
    2:{ unfold bind_stream_args in Hb.
        destruct (existsb _ _); [by simplify_eq|].
        destruct (P !! "stop") as [[]|]; simpl in Hb; by simplify_eq. }
    assert (is_Some (kwargs' !! "runtime_stop")) as Hclash.
    { apply invocation_params_inv in HP as (_ & base & _ & ->).
      unfold bind_stream_args in Hb.
      destruct (existsb _ _); [done|].
      rewrite lookup_insert_eq in Hb. simpl in Hb. injection Hb as <- <-.
      rewrite lookup_delete_ne, lookup_insert_ne by done.
      unfold _default_params. rewrite !lookup_update, Hv.
      destruct (kwargs !! "runtime_stop"); eauto. }
    assert (_invocation_params self stop' kwargs' = Raise TypeError) as Hraise.
    { apply invocation_params_clash. unfold params_kwargs.
      rewrite !Forall_cons. intros (_ & H & _). destruct Hclash. congruence. }
    destruct (drivers_raise client async_client self prompt stop' run_manager
                kwargs' TypeError w Hraise) as (_ & _ & Hs).
    unfold _stream, _astream. by rewrite !Hs.
Qed.

(** C10 (as amended). With streaming enabled, [_call] and [_acall] merge
    the parameters and pass the merged mapping to the decoder, which
    merges again on top of the defaults: the request that reaches the
    transport carries the base stop list twice, followed by the runtime
    stop list. The base is the [stop] entry of the default parameters,
    which is the configuration's stop sequences unless the extras define
    [stop]. (The request is made when the merged parameters have no entry
    named like an argument of the calls involved: [self], [prompt],
    [run_manager], [stream] or [runtime_stop].) *)
Theorem streaming_call_repeats_base_stop (client async_client : transport)
    (self : HuggingFaceEndpoint) (prompt : string)
    (stop : option (list string)) (run_manager : bool) (kwargs : dict)
    (base : list string) (w : list effect) :
  streaming self = true →
  _default_params self !! "stop" = Some (VList base) →
  kwargs !! "stop" = None →
  Forall (λ k, PyDict.update (_default_params self) kwargs !! k = None)
         ["self"; "prompt"; "run_manager"; "stream"; "runtime_stop"] →
  (∃ kw tokens,
     snd (_call client async_client self prompt stop run_manager kwargs w)
     = w ++ TextGeneration SyncClient [VStr prompt] kw :: tokens
     ∧ kw !! "stop" = Some (VList (base ++ base ++ default [] stop))
     ∧ Forall is_token tokens)
  ∧ (∃ kw tokens,
       snd (_acall client async_client self prompt stop run_manager kwargs w)
       = w ++ TextGeneration AsyncClient [VStr prompt] kw :: tokens
       ∧ kw !! "stop" = Some (VList (base ++ base ++ default [] stop))
       ∧ Forall is_token tokens)
  ∧ (model_kwargs self !! "stop" = None → base = stop_sequences self).
Proof.
  intros Hstreaming Hbase Hkwargs Hfree.
  rewrite !Forall_cons in Hfree.
  destruct Hfree as (H1 & H2 & H3 & H4 & H5 & _).
  assert (params_kwargs (PyDict.update (_default_params self) kwargs)) as Hbind
    by (by repeat constructor).
  destruct (call_streaming_eq client async_client self prompt stop run_manager
              kwargs base Hstreaming Hbase Hkwargs Hbind w) as [Hc Ha];
    [by repeat constructor|].
  split; [|split].
  - destruct (remerged_stream_trace client async_client self prompt stop
                run_manager kwargs base Hbase Hbind SyncClient w H4)
      as (kw & tokens & Htr & Hkw & Htk).
    exists kw, tokens. split; [|done]. rewrite Hc. unfold _stream.
    rewrite <- Htr.
    by destruct (stream_with _ _ _ _ _ _ _ _ _) as [[?|?] ?].
  - destruct (remerged_stream_trace client async_client self prompt stop
                run_manager kwargs base Hbase Hbind AsyncClient w H4)
      as (kw & tokens & Htr & Hkw & Htk).
    exists kw, tokens. split; [|done]. rewrite Ha. unfold _astream.
    rewrite <- Htr.
    by destruct (stream_with _ _ _ _ _ _ _ _ _) as [[?|?] ?].
  - intros Hmk. unfold _default_params in Hbase.
    rewrite lookup_update, Hmk, explicit_params_stop in Hbase.
    by injection Hbase.
Qed.

Lemma streaming_call_repeats_base_stop_witness :
  ∃ kw tokens,
    snd (_call limited_server limited_server
           (endpoint ["a"] true {[ "details" := VBool false ]}) "Hello"
           (Some ["z"]) true {[ "seed" := VInt 7 ]} [])
    = [] ++ TextGeneration SyncClient [VStr "Hello"] kw :: tokens
    ∧ kw !! "stop" = Some (VList (["a"] ++ ["a"] ++ ["z"]))
    ∧ Forall is_token tokens.
Proof.
  apply (streaming_call_repeats_base_stop limited_server limited_server
           (endpoint ["a"] true {[ "details" := VBool false ]}) "Hello"
           (Some ["z"]) true {[ "seed" := VInt 7 ]} ["a"] []);
    try reflexivity.
  repeat constructor.
Defined.

(** With extras that define [stop], the request does not carry the
    configuration's stop sequences at all. *)
Lemma extras_stop_in_streaming_request :
  ∃ kw,
    snd (_call limited_server limited_server
           (endpoint ["a"] true {[ "stop" := VList ["b"] ]}) "Hello"
           None false ∅ [])
    = [TextGeneration SyncClient [VStr "Hello"] kw]
    ∧ kw !! "stop" = Some (VList ["b"; "b"])
    ∧ kw !! "stop" ≠ Some (VList (["a"] ++ ["a"] ++ [])).
Proof.
  eexists. split; [vm_compute; reflexivity|]. split; [reflexivity|].
  vm_compute. discriminate.
Qed.

(** With streaming enabled, [_call] (respectively [_acall]) returns the
    chunk texts of the streaming decoder joined in order without
    separators, where the decoder is run on the already merged
    parameters. This is the join of the chunks that [_stream]
    (respectively [_astream]) yields for the caller's own inputs whenever
    the transport answers alike no matter how often the leading stop
    sequences are listed, the overrides have no entry named
    [runtime_stop], and the configuration's extras do not use the names
    [self], [prompt], [run_manager] or [runtime_stop]. *)
Theorem streaming_completion_joins_chunks (client async_client : transport)
    (self : HuggingFaceEndpoint) (prompt : string)
    (stop : option (list string)) (run_manager : bool) (kwargs : dict)
    (w : list effect) :
  streaming self = true →
  method_kwargs kwargs →
  kwargs !! "runtime_stop" = None →
  Forall (λ k, model_kwargs self !! k = None)
         ["self"; "prompt"; "run_manager"; "runtime_stop"] →
  stop_insensitive client →
  stop_insensitive async_client →
  fst (_call client async_client self prompt stop run_manager kwargs w)
  = join_chunks
      <$> fst (_stream client async_client self prompt stop run_manager kwargs w)
  ∧ fst (_acall client async_client self prompt stop run_manager kwargs w)
    = join_chunks
        <$> fst (_astream client async_client self prompt stop run_manager kwargs w).
Proof.
  intros Hstreaming Hkw K5 Hmk Hc Ha.
  unfold method_kwargs in Hkw. rewrite !Forall_cons in Hkw.
  rewrite !Forall_cons in Hmk.
  destruct Hkw as (K1 & K2 & K3 & K4 & _).
  destruct Hmk as (M1 & M2 & M3 & M4 & _).
  assert (params_kwargs (PyDict.update (_default_params self) kwargs)) as Hbind
    by (repeat constructor; by apply merged_free).
  destruct (default_stop_is_Some self) as [v Hv].
  assert ((∃ base, v = VList base) ∨ ∀ base, v ≠ VList base) as [[base ->]|Hnot]
    by (destruct v; eauto).
  - destruct (call_streaming_eq client async_client self prompt stop run_manager
                kwargs base Hstreaming Hv K3 Hbind w) as [Hcall Hacall].
    { repeat constructor; by apply merged_free. }
    rewrite Hcall, Hacall. unfold _stream, _astream.
    rewrite <- (remerged_stream_chunks client async_client self prompt stop
                  run_manager kwargs base Hv K3 Hbind SyncClient w Hc).
    rewrite <- (remerged_stream_chunks client async_client self prompt stop
                  run_manager kwargs base Hv K3 Hbind AsyncClient w Ha).
    split.
    + by destruct (stream_with _ _ SyncClient _ _ _ _ _ _) as [[?|?] ?].
    + by destruct (stream_with _ _ AsyncClient _ _ _ _ _ _) as [[?|?] ?].
  - assert (_invocation_params self stop kwargs = Raise TypeError) as Hraise.
    { rewrite invocation_params_eq by (by eapply params_kwargs_update).
      rewrite three_layer_no_override, Hv by done.
      destruct v; try done. by edestruct Hnot. }
    destruct (drivers_raise client async_client self prompt stop run_manager
                kwargs TypeError w Hraise) as (-> & -> & Hs).
    unfold _stream, _astream. by rewrite !Hs.
Qed.

Lemma streaming_completion_joins_chunks_witness :
  fst (_call cat_server cat_server (endpoint ["<STOP>"] true ∅) "Hello"
         (Some ["."]) true {[ "seed" := VInt 7 ]} [])
  = join_chunks
      <$> fst (_stream cat_server cat_server (endpoint ["<STOP>"] true ∅) "Hello"
                 (Some ["."]) true {[ "seed" := VInt 7 ]} []).
Proof.
  apply (streaming_completion_joins_chunks cat_server cat_server
           (endpoint ["<STOP>"] true ∅) "Hello" (Some ["."]) true
           {[ "seed" := VInt 7 ]} []).
  - reflexivity.
  - repeat constructor.
  - reflexivity.
  - repeat constructor.
  - intros args kwargs base rest _. reflexivity.
  - intros args kwargs base rest _. reflexivity.
Defined.

(** C8. With streaming enabled the completion is meant to be the join of
    the chunks of the decoder for the same inputs, and [_call] does
    delegate to [_stream]; but it hands over the merged parameters, which
    the decoder merges again, so the request differs (the base stop
    sequences are listed twice). A server with a bound on the number of
    stop sequences tells the two apart: the decoder called with three
    stop sequences streams "Hi" and " there", the driver sends six and is
    refused. *)
Theorem repeated_stops_reach_the_server :
  fst (_stream limited_server limited_server (endpoint ["a"; "b"; "c"] true ∅)
         "Hello" None false ∅ [])
  = Ok [mkGenerationChunk "Hi"; mkGenerationChunk " there"]
  ∧ fst (_call limited_server limited_server (endpoint ["a"; "b"; "c"] true ∅)
           "Hello" None false ∅ [])
    = Raise (TransportError "stop: too many sequences")
  ∧ fst (_call limited_server limited_server (endpoint ["a"; "b"; "c"] true ∅)
           "Hello" None false ∅ [])
    ≠ join_chunks
        <$> fst (_stream limited_server limited_server
                   (endpoint ["a"; "b"; "c"] true ∅) "Hello" None false ∅ []).
Proof. split; [reflexivity|]. split; [reflexivity|]. vm_compute. discriminate. Qed.

(** * The non-streaming drivers *)

Section plain_call.
Context (client async_client : transport).
Context (self : HuggingFaceEndpoint) (prompt : string).
Context (stop : option (list string)) (rm : bool) (kwargs params : dict).
Context (stops : list string).
Hypothesis Hplain : streaming self = false.
Hypothesis Hparams : _invocation_params self stop kwargs = Ok params.
Hypothesis Hstops : params !! "stop" = Some (VList stops).

(** Without streaming, [_call] sends one request and returns the
    response after the trailing trim with the merged stop list. *)
Lemma call_returns_trimmed (kw : dict) (w : list effect) :
  PyDict.keywords [("prompt", VStr prompt); ("model", VStr (model self))] params
  = Ok kw →
  _call client async_client self prompt stop rm kwargs w
  = (trim_stop_sequences stops <$> text_generation client [] kw,
     w ++ [TextGeneration SyncClient [] kw]).
Proof.
  intros Hkw. unfold _call, call_text_generation. munfold.
  rewrite Hparams, Hplain, Hkw, Hstops. simpl.
  by destruct (text_generation client [] _).
Qed.

(** [_acall] does the same with the asynchronous client, and passes
    [stream=False] in addition: a [stream] entry among the merged
    parameters makes that call a [TypeError]. *)
Lemma acall_returns_trimmed (kw : dict) (w : list effect) :
  PyDict.keywords [("prompt", VStr prompt); ("model", VStr (model self));
                   ("stream", VBool false)] params
  = Ok kw →
  _acall client async_client self prompt stop rm kwargs w
  = (trim_stop_sequences stops <$> text_generation async_client [] kw,
     w ++ [TextGeneration AsyncClient [] kw]).
Proof.
  intros Hkw. unfold _acall, call_text_generation. munfold.
  rewrite Hparams, Hplain, Hkw, Hstops. simpl.
  by destruct (text_generation async_client [] _).
Qed.

Lemma acall_stream_override (w : list effect) :
  is_Some (params !! "stream") →
  _acall client async_client self prompt stop rm kwargs w
  = (Raise TypeError, w).
Proof.
  intros Hs. unfold _acall. munfold.
  rewrite Hparams, Hplain.
  rewrite keywords_clash; [done|]. by repeat constructor.
Qed.
End plain_call.

(** C4. Without streaming, [_call] and [_acall] return the response of
    the transport trimmed by going through the merged stop list in its
    order; at each stop sequence the text as trimmed so far loses that
    sequence if, and only if, it ends with it. Hence nothing but a
    concatenation of stop sequences, taken from the list in order and
    stacked at the end of the response, is removed, and "Hello
    world<|end|>" with ["<|end|>"] gives "Hello world". *)
Theorem trailing_trim_in_order :
  (∀ client async_client self prompt stop run_manager kwargs params kw
     stops response_text w,
     streaming self = false →
     _invocation_params self stop kwargs = Ok params →
     params !! "stop" = Some (VList stops) →
     PyDict.keywords [("prompt", VStr prompt); ("model", VStr (model self))]
       params
     = Ok kw →
     text_generation client [] kw = Ok response_text →
     ∃ returned removed,
       _call client async_client self prompt stop run_manager kwargs w
       = (Ok returned, w ++ [TextGeneration SyncClient [] kw])
       ∧ returned = trailing_trim_spec stops response_text
       ∧ sublist removed stops
       ∧ response_text = returned +:+ str_concat (reverse removed))
  ∧ (∀ client async_client self prompt stop run_manager kwargs params kw
       stops response_text w,
       streaming self = false →
       _invocation_params self stop kwargs = Ok params →
       params !! "stop" = Some (VList stops) →
       PyDict.keywords [("prompt", VStr prompt); ("model", VStr (model self));
                        ("stream", VBool false)] params
       = Ok kw →
       text_generation async_client [] kw = Ok response_text →
       ∃ returned removed,
         _acall client async_client self prompt stop run_manager kwargs w
         = (Ok returned, w ++ [TextGeneration AsyncClient [] kw])
         ∧ returned = trailing_trim_spec stops response_text
         ∧ sublist removed stops
         ∧ response_text = returned +:+ str_concat (reverse removed))
  ∧ (∀ stops response_text,
       trim_stop_sequences stops response_text
       = trailing_trim_spec stops response_text)
  ∧ (∀ stops response_text,
       ∃ removed,
         sublist removed stops
         ∧ response_text
           = trim_stop_sequences stops response_text
             +:+ str_concat (reverse removed))
  ∧ trim_stop_sequences ["<|end|>"] "Hello world<|end|>" = "Hello world"
  ∧ fst (_call hello_server hello_server (endpoint ["<|end|>"] false ∅)
           "Say hello" None false ∅ []) = Ok "Hello world"
  ∧ fst (_acall hello_server hello_server (endpoint ["<|end|>"] false ∅)
           "Say hello" None false ∅ []) = Ok "Hello world".
Proof.
  split; [|split].
  - intros client async_client self prompt stop rm kwargs params kw stops
      response_text w Hplain Hparams Hstops Hkw Hanswer.
    destruct (trim_removes_suffixes stops response_text) as (removed & Hsub & Heq).
    exists (trim_stop_sequences stops response_text), removed.
    rewrite (call_returns_trimmed client async_client self prompt stop rm kwargs
               params stops Hplain Hparams Hstops kw w Hkw), Hanswer.
    repeat split; [apply trim_refines_spec|done|done].
  - intros client async_client self prompt stop rm kwargs params kw stops
      response_text w Hplain Hparams Hstops Hkw Hanswer.
    destruct (trim_removes_suffixes stops response_text) as (removed & Hsub & Heq).
    exists (trim_stop_sequences stops response_text), removed.
    rewrite (acall_returns_trimmed client async_client self prompt stop rm kwargs
               params stops Hplain Hparams Hstops kw w Hkw), Hanswer.
    repeat split; [apply trim_refines_spec|done|done].
  - split; [apply trim_refines_spec|]. split; [apply trim_removes_suffixes|].
    repeat split; reflexivity.
Qed.

Lemma trailing_trim_in_order_witness :
  ∃ kw removed,
    _call hello_server hello_server (endpoint ["!"; "<|end|>"] false ∅)
      "Say hello" (Some ["world"]) true {[ "seed" := VInt 7 ]} []
    = (Ok "Hello ", [] ++ [TextGeneration SyncClient [] kw])
    ∧ sublist removed ["!"; "<|end|>"; "world"]
    ∧ "Hello world<|end|>" = "Hello " +:+ str_concat (reverse removed).
Proof.
  destruct (proj1 trailing_trim_in_order hello_server hello_server
              (endpoint ["!"; "<|end|>"] false ∅) "Say hello" (Some ["world"])
              true {[ "seed" := VInt 7 ]}
              (<["stop" := VList (["!"; "<|end|>"] ++ ["world"])]>
                 (PyDict.update
                    (_default_params (endpoint ["!"; "<|end|>"] false ∅))
                    {[ "seed" := VInt 7 ]}))
              (PyDict.update
                 (<["stop" := VList (["!"; "<|end|>"] ++ ["world"])]>
                    (PyDict.update
                       (_default_params (endpoint ["!"; "<|end|>"] false ∅))
                       {[ "seed" := VInt 7 ]}))
                 (PyDict.display [("prompt", VStr "Say hello");
                                  ("model", VStr "gpt2")]))
              ["!"; "<|end|>"; "world"] "Hello world<|end|>" [])
    as (returned & removed & Hrun & Hret & Hsub & Heq).
  - reflexivity.
  - vm_compute. reflexivity.
  - reflexivity.
  - vm_compute. reflexivity.
  - reflexivity.
  - subst returned. eexists. exists removed.
    split; [exact Hrun|]. split; [exact Hsub | exact Heq].
Defined.

(** The two decoders run the same loop: with clients that stream the
    same fragments they yield the same chunks. *)
Lemma astream_matches_stream (client async_client : transport)
    (self : HuggingFaceEndpoint) (prompt : string)
    (stop : option (list string)) (rm : bool) (kwargs : dict)
    (w : list effect) :
  (∀ args kw, text_generation_stream async_client args kw
              = text_generation_stream client args kw) →
  fst (_astream client async_client self prompt stop rm kwargs w)
  = fst (_stream client async_client self prompt stop rm kwargs w).
Proof.
  intros Hagree. unfold _astream, _stream.
  destruct (_invocation_params self stop kwargs) as [P|e] eqn:HP.
  2:{ destruct (drivers_raise client async_client self prompt stop rm kwargs
                  e w HP) as (_ & _ & Hs). by rewrite !Hs. }
  assert (∃ stops, P !! "stop" = Some (VList stops)) as [stops Hstops].
  { apply invocation_params_inv in HP as (_ & base & _ & ->).
    eexists. apply lookup_insert_eq. }
  destruct (PyDict.keywords [("stream", VBool true)] P) as [kw|e] eqn:Hkw.
  2:{ by rewrite !(stream_with_raise client async_client self prompt rm _ _ _ _ e w HP Hkw). }
  rewrite !(stream_with_eq client async_client _ self prompt stop rm kwargs P kw w HP Hkw).
  simpl. rewrite Hagree.
  destruct (text_generation_stream client _ _) as [responses|?]; [|done].
  match goal with
  | |- fst (match ?a with _ => _ end) = fst (match ?b with _ => _ end) =>
      assert (fst a = fst b) as Hfst
        by (by apply stream_loop_fst_ext with (s1 := stops) (s2 := stops))
  end.
  destruct (stream_loop AsyncClient _ _ _ _) as [[[??]|?] ?],
           (stream_loop SyncClient _ _ _ _) as [[[??]|?] ?];
    simpl in *; by simplify_eq.
Qed.

(** C9. The blocking and the non-blocking completion differ on an
    override named [stream]: [_call] passes it on to the transport and
    returns the trimmed response, while [_acall], which also passes
    [stream=False] itself, raises [TypeError] before any request. *)
Theorem acall_rejects_stream_override :
  _call limited_server limited_server (endpoint ["there"] false ∅) "Hello"
    None false {[ "stream" := VBool false ]} []
  = (Ok "Hi ",
     [TextGeneration SyncClient []
        (PyDict.update
           (<["stop" := VList ["there"]]>
              (PyDict.update (_default_params (endpoint ["there"] false ∅))
                 {[ "stream" := VBool false ]}))
           (PyDict.display [("prompt", VStr "Hello"); ("model", VStr "gpt2")]))])
  ∧ _acall limited_server limited_server (endpoint ["there"] false ∅) "Hello"
      None false {[ "stream" := VBool false ]} []
    = (Raise TypeError, []).
Proof. split; vm_compute; reflexivity. Qed.

(** Apart from that, the two completions agree: when the merged
    parameters have no [stream] entry and the asynchronous client answers
    like the blocking one (a plain request with [stream=False] like the
    same request without the flag), [_acall] returns what [_call]
    returns. *)
Lemma acall_matches_call (client async_client : transport)
    (self : HuggingFaceEndpoint) (prompt : string)
    (stop : option (list string)) (rm : bool) (kwargs : dict)
    (w : list effect) :
  PyDict.update (_default_params self) kwargs !! "stream" = None →
  (∀ args kw, text_generation_stream async_client args kw
              = text_generation_stream client args kw) →
  (∀ kw, text_generation async_client [] (<["stream" := VBool false]> kw)
         = text_generation client [] kw) →
  fst (_acall client async_client self prompt stop rm kwargs w)
  = fst (_call client async_client self prompt stop rm kwargs w).
Proof.
  intros Hstream Hs Ht. unfold _acall, _call. munfold.
  destruct (_invocation_params self stop kwargs) as [P|e] eqn:HP; [|done].
  destruct (streaming self).
  - destruct (bind_stream_args P) as [[stop' kwargs']|e]; [|done].
    pose proof (astream_matches_stream client async_client self prompt stop'
                  rm kwargs' w Hs) as Heq.
    destruct (_astream _ _ _ _ _ _ _ _) as [[?|?] ?],
             (_stream _ _ _ _ _ _ _ _) as [[?|?] ?]; simpl in *; by simplify_eq.
  - assert (P !! "stream" = None) as HPs.
    { apply invocation_params_inv in HP as (_ & base & _ & ->).
      by rewrite lookup_insert_ne. }
    unfold PyDict.keywords. cbn [existsb fst]. rewrite HPs.
    rewrite (bool_decide_eq_false_2 (is_Some None)) by (by intros [? ?]).
    rewrite !orb_false_r.
    destruct (_ || _); [done|].
    unfold call_text_generation. cbn [the_client].
    assert (PyDict.update P
              (PyDict.display [("prompt", VStr prompt);
                               ("model", VStr (model self));
                               ("stream", VBool false)])
            = <["stream" := VBool false]>
                (PyDict.update P
                   (PyDict.display [("prompt", VStr prompt);
                                    ("model", VStr (model self))]))) as ->.
    { unfold PyDict.update, PyDict.display. simpl.
      by rewrite insert_union_l. }
    rewrite Ht.
    destruct (text_generation client [] _); [|done].
    by destruct (P !! "stop") as [[]|].
Qed.
